(** * Beatheavenn: the seq2seq [Network] of [src/network.py]

    A shallow embedding of the class [Network]: the window extraction done by
    its constructor (lines 21-39), the Keras graph it declares (lines 41-67),
    [train] (lines 70-74) and [save] / [load_training] (lines 113-118),
    followed by the properties of the specification that concern them, and
    by further properties of the same code: what the constructor raises, how
    the windows cover the roll, the number of examples in integers, which
    examples train, and what the files hold.

    Conventions.
    - Python [int]s are [Z]; indices of a loop that only runs after NumPy
      accepted the dimensions are [nat].
    - A Python [float] is a rational: the value a binary64 number denotes.
      Every float operation of the source is a correctly rounded division
      or conversion; it is written with a rounding function [rnd], which
      is [binary64] (round to nearest, ties to even) for CPython.
    - Resources are not bounded: neither the memory NumPy allocates nor the
      exponent range of a float above (no quotient here is beyond 2^1024).
    - A NumPy array is the nested list of its cells.  The cells of the piano
      roll are integers (presence indicators), which the float64 tensors
      [X] and [y] hold exactly.
    - Raising is a value: every fallible operation returns a [result]. *)

From Stdlib Require Import ZArith QArith Qround Qpower Reals Lqa Lra Lia String.
From stdpp Require Import base option list gmap strings.

Local Open Scope Z_scope.

(** ** Exceptions *)

(** The built-in exceptions the modelled code can raise. *)
Inductive PyError : Type :=
  | ZeroDivisionError
  | ValueError
  | IndexError
  | OSError
  | RuntimeError.

Inductive result (A : Type) : Type :=
  | Ok (a : A)
  | Raise (e : PyError).
Arguments Ok {A} a.
Arguments Raise {A} e.

#[global] Instance result_ret : MRet result := fun _ a => Ok a.
#[global] Instance result_bind : MBind result := fun _ _ f m =>
  match m with
  | Ok a => f a
  | Raise e => Raise e
  end.

(** A [for] loop whose body may raise: the first exception ends it. *)
Fixpoint for_each {A S : Type} (body : S -> A -> result S) (s : S) (l : list A)
  : result S :=
  match l with
  | [] => Ok s
  | a :: l' => s' ← body s a; for_each body s' l'
  end.

(** ** Floats *)

Definition pow2 (e : Z) : Q := (2 ^ e)%Q.

(** The integer [e] with [2^e <= x < 2^(e+1)], for [0 < x]. *)
Definition log2_floor (x : Q) : Z :=
  let d := Z.log2 (Qnum x) - Z.log2 (Zpos (Qden x)) in
  if Qle_bool (pow2 d) x then d else d - 1.

(** The nearest integer, the even one of two that are equally near. *)
Definition round_half_even (v : Q) : Z :=
  let f := Qfloor v in
  match Qcompare (v - inject_Z f) (1 # 2) with
  | Lt => f
  | Gt => f + 1
  | Eq => if Z.even f then f else f + 1
  end.

(** The binade of a positive number, not below the one of the subnormal
    numbers, and the distance between the floats of that binade. *)
Definition exponent (x : Q) : Z := Z.max (log2_floor x) (-1022).
Definition ulp (x : Q) : Q := pow2 (exponent x - 52).

(** The float nearest to [0 < x]: a multiple of [ulp x] with a significand
    of 53 bits. *)
Definition round_positive (x : Q) : Q :=
  (inject_Z (round_half_even (x / ulp x)) * ulp x)%Q.

(** IEEE 754 binary64, round to nearest, ties to even: the value of the
    float that CPython computes for a quotient or a conversion whose exact
    value is [x]. *)
Definition binary64 (x : Q) : Q :=
  match Qcompare x 0 with
  | Eq => 0%Q
  | Gt => Qred (round_positive x)
  | Lt => Qred (- round_positive (- x))
  end.

(** Exact arithmetic: the rounding that rounds nothing. *)
Definition exact (x : Q) : Q := x.

(** What the proofs use of a rounding: it is monotone, a float rounds to
    itself, so does an integer of 53 bits, and doubling a positive integer
    doubles its float. *)
Record rounding_to_nearest (rnd : Q -> Q) : Prop := {
  rnd_monotone : forall a b : Q, (a <= b)%Q -> (rnd a <= rnd b)%Q;
  rnd_idempotent : forall a : Q, (rnd (rnd a) == rnd a)%Q;
  rnd_integer : forall z : Z, Z.abs z <= 2 ^ 53 -> (rnd (inject_Z z) == inject_Z z)%Q;
  rnd_double : forall z : Z, 0 < z -> (rnd (inject_Z (2 * z)) == 2 * rnd (inject_Z z))%Q
}.

(** ** NumPy arrays as nested lists *)

(** A matrix is the list of its rows, a tensor of rank three the list of
    its matrices. *)
Abbreviation Matrix := (list (list Z)).
Abbreviation Tensor3 := (list (list (list Z))).

(** [np.zeros(shape=(n, t, r))]: NumPy refuses a negative dimension. *)
Definition np_zeros (n t r : Z) : result Tensor3 :=
  if (n <? 0) || (t <? 0) || (r <? 0) then Raise ValueError
  else Ok (replicate (Z.to_nat n) (replicate (Z.to_nat t) (replicate (Z.to_nat r) 0))).

(** [l[a:b]] of a Python list, for indices that are not negative: both ends
    are clamped to the length, and the slice is empty when [b <= a]. *)
Definition py_slice {A : Type} (l : list A) (a b : nat) : list A :=
  take (b - a) (drop a l).

(** The rows of [m] all have [c] cells. *)
Definition rectangular (c : nat) (m : Matrix) : bool :=
  forallb (fun row => Nat.eqb (length row) c) m.

(** NumPy broadcasting along one axis: an axis of the wanted size is kept,
    an axis of size one is repeated, anything else is refused. *)
Definition broadcast_axis {A : Type} (n : nat) (l : list A) : result (list A) :=
  if Nat.eqb (length l) n then Ok l
  else match l with
       | [x] => Ok (replicate n x)
       | _ => Raise ValueError
       end.

(** [f] over a list, left to right, stopping at the first exception. *)
Fixpoint map_result {A B : Type} (f : A -> result B) (l : list A)
  : result (list B) :=
  match l with
  | [] => Ok []
  | a :: l' => b ← f a; bs ← map_result f l'; Ok (b :: bs)
  end.

(** What [dst[i] = src] stores when [dst[i]] has shape [(t, r)] and [src]
    is a Python list of rows: [src] is converted with [np.asarray] and
    broadcast to [(t, r)].  The empty list has shape [(0,)], which only
    broadcasts to a last axis of size zero; rows of different lengths do
    not make an array. *)
Definition broadcast_block (t r : nat) (src : Matrix) : result Matrix :=
  match src with
  | [] => if Nat.eqb r 0 then Ok (replicate t []) else Raise ValueError
  | row :: _ =>
      if rectangular (length row) src then
        rows ← map_result (broadcast_axis r) src; broadcast_axis t rows
      else Raise ValueError
  end.

(** [dst[i] = src] for a tensor [dst] of shape [(_, t, r)] and [0 <= i]. *)
Definition setitem (dst : Tensor3) (i t r : nat) (src : Matrix) : result Tensor3 :=
  if Nat.ltb i (length dst) then
    block ← broadcast_block t r src; Ok (<[i := block]> dst)
  else Raise IndexError.

(** ** The performance source *)

(** Modelled from the spec: the class of [midi_in] (the performance-source
    collaborator) is not in the repository's sources.  Section 6 of the
    specification gives its interface: a piano-roll matrix, its resolution
    in slices per beat, its ticks per beat, its total tick count and its
    note range.  The fields keep the names the constructor reads; the roll
    is a Python list of rows (the constructor makes an array of it), the
    other four are [int]s. *)
Record Midi : Type := {
  beat_roll : Matrix;
  res : Z;
  total_ticks : Z;
  tpb : Z;
  note_range : Z
}.

(** ** The Keras graph *)

Record InputLayer : Type := {
  input_shape : Z * Z;
  input_name : string
}.

Record LSTM : Type := {
  units : Z;
  return_sequences : bool;
  return_state : bool;
  lstm_name : string
}.

Record Dense : Type := {
  dense_units : Z;
  activation : string;
  dense_name : string
}.

(** A symbolic Keras tensor: the expression that computes it.  A recurrent
    layer called with [return_state=True] has three outputs (the output, the
    hidden state and the cell state); [KLSTM l x k] is the [k]-th output of
    layer [l] called on [x], and [KLSTMFrom l x h c k] the [k]-th output of
    [l] called on [x] with [initial_state=[h, c]]. *)
Inductive KTensor : Type :=
  | KInput (l : InputLayer)
  | KDropout (rate : Q) (x : KTensor)
  | KLSTM (l : LSTM) (x : KTensor) (k : nat)
  | KLSTMFrom (l : LSTM) (x h c : KTensor) (k : nat)
  | KDense (l : Dense) (x : KTensor).

(** A Keras [Model]: the graph between its inputs and outputs, the
    optimizer and loss [compile] recorded (if it was called), and the
    parameter values, of a type [W] that the numeric backend fixes. *)
Record KModel (W : Type) : Type := {
  model_inputs : list KTensor;
  model_outputs : list KTensor;
  compiled : option (string * string);
  weights : W
}.
Arguments model_inputs {W} _.
Arguments model_outputs {W} _.
Arguments compiled {W} _.
Arguments weights {W} _.

(** A training example as [fit] sees it: one window per model input, and
    the target window. *)
Abbreviation Sample := (list (list (list Z)) * list (list Z))%type.

(** The numeric side of Keras, which the repository only calls: the type of
    a model's parameter values, their initial (randomly drawn) value, one
    epoch of gradient updates of a compiled model over its training
    examples with a given batch size (the new parameter values, or the
    exception Keras raises), the forward pass, and the serialisation of a
    model to the contents of a file. *)
Class Keras : Type := {
  Weights : Type;
  Prediction : Type;
  Blob : Type;
  initial_weights : list KTensor -> list KTensor -> Weights;
  run_epoch : KModel Weights -> Z -> list Sample -> result Weights;
  predict : KModel Weights -> list Tensor3 -> Prediction;
  serialize : KModel Weights -> Blob;
  deserialize : Blob -> option (KModel Weights)
}.

(** ** The class [Network] *)

Section Network.

Context `{K : Keras}.

(** The rounding of the float arithmetic: [binary64] for CPython.  The
    definitions are written for any rounding; the theorems that need a
    property of it say so. *)
Variable rnd : Q -> Q.

(** [a / b] for two [int]s: the correctly rounded quotient. *)
Definition int_truediv (a b : Z) : result Q :=
  if b =? 0 then Raise ZeroDivisionError
  else Ok (rnd (inject_Z a / inject_Z b)).

(** [x / b] for a [float] and an [int]: the [int] is converted to a float
    first, and a zero divisor is refused. *)
Definition float_truediv (x : Q) (b : Z) : result Q :=
  let divisor := rnd (inject_Z b) in
  if Qeq_bool divisor 0 then Raise ZeroDivisionError
  else Ok (rnd (x / divisor)).

(** The attributes of a [Network] object. *)
Record Network : Type := {
  encoder_in_data : Matrix;
  midi_in : Midi;
  time_step : Z;
  beats_in_window : Z;
  N : Z;
  X : Tensor3;
  y : Tensor3;
  hidden : Z;
  enc_in : KTensor;
  enc_lstm_1 : LSTM;
  enc_lstm_2 : LSTM;
  enc_state : list KTensor;
  dec_in : KTensor;
  dec_lstm_1 : LSTM;
  dec_lstm_2 : LSTM;
  dec_dense : Dense;
  training_model : KModel Weights
}.

(** Lines 27-29: [total_beats] and the number of examples. *)
Definition total_beats_of (midi : Midi) : result Q :=
  int_truediv (total_ticks midi) (tpb midi).

Definition window_count (midi : Midi) (beats : Z) : result Z :=
  total_beats ← total_beats_of midi;
  quotient ← float_truediv total_beats beats;
  Ok (Qfloor quotient - 1).

(** Lines 35-39: the body of the window loop, on the pair [(X, y)]. *)
Definition window_step (roll : Matrix) (t r : nat) (Xy : Tensor3 * Tensor3) (i : nat)
  : result (Tensor3 * Tensor3) :=
  let beat_start := (i * t)%nat in
  X' ← setitem Xy.1 i t r (py_slice roll beat_start (beat_start + t));
  if Nat.ltb 0 i then
    y' ← setitem Xy.2 (i - 1) t r
           (py_slice roll (beat_start + t) (beat_start + t * 2));
    Ok (X', y')
  else Ok (X', Xy.2).

(** Lines 31-39: both tensors are allocated, then filled window by window. *)
Definition windows (roll : Matrix) (n t r : Z) : result (Tensor3 * Tensor3) :=
  X0 ← np_zeros n t r;
  y0 ← np_zeros n t r;
  for_each (window_step roll (Z.to_nat t) (Z.to_nat r)) (X0, y0) (seq 0 (Z.to_nat n)).

(** [Network.__init__(self, midi_in, beats_in_window)].  The exceptions
    come in the order of the source: the two divisions, the allocations,
    the loop.  [encoder_in_data] is the array of the roll, which has its
    cells.  Declaring the layers and the model computes nothing on the
    data; it is taken to raise nothing. *)
Definition Network_init (midi : Midi) (beats : Z) : result Network :=
  let time_step' := beats * res midi in
  n ← window_count midi beats;
  Xy ← windows (beat_roll midi) n time_step' (note_range midi);
  let hidden' := 128 in
  let enc_in' := KInput {| input_shape := (time_step', note_range midi);
                           input_name := "encoder_input" |} in
  let enc_lstm_1' := {| units := hidden'; return_sequences := true;
                        return_state := false;
                        lstm_name := "encoder_lstm_input" |} in
  let enc_out := KDropout (3 # 10) (KLSTM enc_lstm_1' enc_in' 0) in
  let enc_lstm_2' := {| units := hidden'; return_sequences := false;
                        return_state := true;
                        lstm_name := "encoder_lstm_output" |} in
  let enc_h := KLSTM enc_lstm_2' enc_out 1 in
  let enc_c := KLSTM enc_lstm_2' enc_out 2 in
  let dec_in' := KInput {| input_shape := (time_step', note_range midi);
                           input_name := "decoder_input" |} in
  let dec_lstm_1' := {| units := hidden'; return_sequences := true;
                        return_state := false;
                        lstm_name := "decoder_lstm_input" |} in
  let dec_lstm_2' := {| units := hidden'; return_sequences := true;
                        return_state := true;
                        lstm_name := "decoder_lstm_output" |} in
  let dec_dense' := {| dense_units := note_range midi; activation := "softmax";
                       dense_name := "decoder_dense" |} in
  let dec_out :=
    KDense dec_dense'
      (KLSTM dec_lstm_2' (KLSTMFrom dec_lstm_1' dec_in' enc_h enc_c 0) 0) in
  Ok {| encoder_in_data := beat_roll midi;
        midi_in := midi;
        time_step := time_step';
        beats_in_window := beats;
        N := n;
        X := Xy.1;
        y := Xy.2;
        hidden := hidden';
        enc_in := enc_in';
        enc_lstm_1 := enc_lstm_1';
        enc_lstm_2 := enc_lstm_2';
        enc_state := [enc_h; enc_c];
        dec_in := dec_in';
        dec_lstm_1 := dec_lstm_1';
        dec_lstm_2 := dec_lstm_2';
        dec_dense := dec_dense';
        training_model :=
          {| model_inputs := [enc_in'; dec_in'];
             model_outputs := [dec_out];
             compiled := None;
             weights := initial_weights [enc_in'; dec_in'] [dec_out] |} |}.

(** The default of the keyword argument: [beats_in_window=8]. *)
Definition Network_init_default (midi : Midi) : result Network :=
  Network_init midi 8.

(** *** Training *)

Definition set_training_model (net : Network) (m : KModel Weights) : Network :=
  {| encoder_in_data := encoder_in_data net;
     midi_in := midi_in net;
     time_step := time_step net;
     beats_in_window := beats_in_window net;
     N := N net;
     X := X net;
     y := y net;
     hidden := hidden net;
     enc_in := enc_in net;
     enc_lstm_1 := enc_lstm_1 net;
     enc_lstm_2 := enc_lstm_2 net;
     enc_state := enc_state net;
     dec_in := dec_in net;
     dec_lstm_1 := dec_lstm_1 net;
     dec_lstm_2 := dec_lstm_2 net;
     dec_dense := dec_dense net;
     training_model := m |}.

Definition set_weights (m : KModel Weights) (w : Weights) : KModel Weights :=
  {| model_inputs := model_inputs m;
     model_outputs := model_outputs m;
     compiled := compiled m;
     weights := w |}.

(** [model.compile(optimizer=..., loss=...)] records both on the model. *)
Definition keras_compile (m : KModel Weights) (optimizer loss : string)
  : KModel Weights :=
  {| model_inputs := model_inputs m;
     model_outputs := model_outputs m;
     compiled := Some (optimizer, loss);
     weights := weights m |}.

(** The examples of [fit(xs, ys)]: example [i] takes row [i] of every input
    array and row [i] of the target. *)
Definition samples (xs : list Tensor3) (ys : Tensor3) : list Sample :=
  imap (fun i target => (omap (fun x : Tensor3 => x !! i) xs, target)) ys.

(** Keras cuts the validation examples off the end of the data before
    training: [split_at = int(len(x[0]) * (1. - validation_split))], in
    float arithmetic; the examples before [split_at] train and the rest
    only monitor.  ([int] truncates; the product is not negative.) *)
Definition split_at (n : nat) (validation_split : Q) : nat :=
  Z.to_nat
    (Qfloor (rnd (rnd (inject_Z (Z.of_nat n)) * rnd (1 - validation_split)))).

(** The examples that train: all of them unless
    [0. < validation_split < 1.]. *)
Definition training_examples (validation_split : Q) (examples : list Sample)
  : list Sample :=
  if negb (Qle_bool validation_split 0) && negb (Qle_bool 1 validation_split)
  then take (split_at (length examples) validation_split) examples
  else examples.

(** The epochs of [fit]: each one updates the weights of the model in
    place; an exception ends the training and leaves the weights of the
    epochs before it. *)
Fixpoint fit_epochs (epochs : nat) (m : KModel Weights) (batch_size : Z)
    (training : list Sample) : KModel Weights * option PyError :=
  match epochs with
  | O => (m, None)
  | S epochs' =>
      match run_epoch m batch_size training with
      | Ok w => fit_epochs epochs' (set_weights m w) batch_size training
      | Raise e => (m, Some e)
      end
  end.

(** [model.fit(xs, ys, batch_size=..., epochs=..., validation_split=...)]:
    Keras refuses a model that was not compiled and arrays that disagree on
    the number of examples; otherwise every epoch updates the weights from
    the training examples alone.  The result is the model afterwards and
    the exception, if any.  The history [fit] returns is not modelled: the
    caller drops it. *)
Definition keras_fit (m : KModel Weights) (xs : list Tensor3) (ys : Tensor3)
    (batch_size epochs : Z) (validation_split : Q)
  : KModel Weights * option PyError :=
  match compiled m with
  | None => (m, Some RuntimeError)
  | Some _ =>
      if forallb (fun x : Tensor3 => Nat.eqb (length x) (length ys)) xs then
        fit_epochs (Z.to_nat epochs) m batch_size
          (training_examples validation_split (samples xs ys))
      else (m, Some ValueError)
  end.

(** [Network.train(self, epochs)].  The method mutates the object, also
    when it raises: the result is the object afterwards together with the
    exception, if any.  The literal [0.2] is the float nearest to 2/10. *)
Definition train (net : Network) (epochs : Z) : Network * option PyError :=
  let compiled_model :=
    keras_compile (training_model net) "rmsprop" "binary_crossentropy" in
  let fitted :=
    keras_fit compiled_model [X net; X net] (y net) 1 epochs (rnd (2 # 10)) in
  (set_training_model net fitted.1, fitted.2).

(** The default of the keyword argument: [epochs=50]. *)
Definition train_default (net : Network) : Network * option PyError :=
  train net 50.

(** *** Persistence *)

(** [Network.save(self, filename)] on a file system that maps a name to the
    contents written under it. *)
Definition save (net : Network) (filename : string) (fs : gmap string Blob)
  : gmap string Blob :=
  <[filename := serialize (training_model net)]> fs.

(** [Network.load_training(self, filename)]: [load_model] raises when the
    file is missing or does not hold a model. *)
Definition load_training (net : Network) (filename : string) (fs : gmap string Blob)
  : result Network :=
  match fs !! filename with
  | None => Raise OSError
  | Some blob =>
      match deserialize blob with
      | None => Raise ValueError
      | Some m => Ok (set_training_model net m)
      end
  end.

End Network.

(** ** What an activation computes *)

Definition Rsum (l : list R) : R := foldr Rplus 0%R l.

(** The categorical softmax over the last axis (the pitches of one
    timestep) and the logistic function applied cell by cell. *)
Definition softmax (logits : list R) : list R :=
  (fun x => (exp x / Rsum (exp <$> logits))%R) <$> logits.

Definition sigmoid (x : R) : R := (1 / (1 + exp (- x)))%R.

(** [keras.activations.get(name)] for the names of interest, applied to the
    pre-activations of one timestep. *)
Definition keras_activation (name : string) (logits : list R) : option (list R) :=
  if String.eqb name "softmax" then Some (softmax logits)
  else if String.eqb name "sigmoid" then Some (sigmoid <$> logits)
  else if String.eqb name "linear" then Some logits
  else None.

(** ** Closed forms of the tensors *)

(** The fill value of [np.zeros] for one example. *)
Definition zeros (t r : nat) : Matrix := replicate t (replicate r 0).

(** The [i]-th window of [t] slices. *)
Definition window (roll : Matrix) (t i : nat) : Matrix :=
  py_slice roll (i * t) (i * t + t).

(** [X] and [y] after the iterations [0 .. k-1] of the loop over [n]
    examples, when every slice had the full shape. *)
Definition X_after (roll : Matrix) (n t r k : nat) : Tensor3 :=
  (fun i => if Nat.ltb i k then window roll t i else zeros t r) <$> seq 0 n.

Definition y_after (roll : Matrix) (n t r k : nat) : Tensor3 :=
  (fun i => if Nat.ltb (S i) k then window roll t (i + 2) else zeros t r) <$> seq 0 n.

(** The example of teacher forcing as [train] sets it up: the input window
    twice, and the target row. *)
Definition teacher_forced (x target : Matrix) : Sample := ([x; x], target).

#[global] Arguments zeros : simpl never.
#[global] Arguments window : simpl never.
#[global] Arguments X_after : simpl never.
#[global] Arguments y_after : simpl never.

(** A tensor of shape [(n, t, r)]. *)
Definition has_shape (n t r : nat) (T : Tensor3) : Prop :=
  length T = n /\
  Forall (fun block : Matrix =>
            length block = t /\ Forall (fun row => length row = r) block) T.

(** The piano roll is a matrix with [note_range] columns that holds the
    [n + 1] windows the constructor reads for [n] examples; a window has a
    slice at least and a slice a pitch at least. *)
Definition well_shaped (midi : Midi) (beats n : Z) : Prop :=
  0 < beats * res midi /\
  0 < note_range midi /\
  Forall (fun row => length row = Z.to_nat (note_range midi)) (beat_roll midi) /\
  (n + 1) * (beats * res midi) <= Z.of_nat (length (beat_roll midi)).

(** The invariant of section 3 of the specification: the number of slices
    agrees with the tick count, [T = total_ticks / (tpb / res)]. *)
Definition tick_consistent (midi : Midi) : Prop :=
  0 < tpb midi /\
  Z.of_nat (length (beat_roll midi)) * tpb midi = total_ticks midi * res midi.

(** ** Concrete inputs *)

(** A backend whose weights are the list of the examples that updated
    them, in order, and whose files hold the model itself. *)
Definition trace_backend : Keras :=
  {| Weights := list Sample;
     Prediction := list Sample;
     Blob := KModel (list Sample);
     initial_weights := fun _ _ => [];
     run_epoch := fun m _ training => Ok (weights m ++ training);
     predict := fun m _ => weights m;
     serialize := fun m => m;
     deserialize := Some |}.

(** Four beats of two pitches at one slice per beat: four windows of one
    beat. *)
Definition four_beats : Midi :=
  {| beat_roll := [[0; 1]; [1; 0]; [1; 1]; [0; 1]];
     res := 1;
     total_ticks := 1920;
     tpb := 480;
     note_range := 2 |}.

(** Eight beats at four slices per beat: exactly one window of eight
    beats. *)
Definition one_window : Midi :=
  {| beat_roll := replicate 32 [1; 0; 1];
     res := 4;
     total_ticks := 3840;
     tpb := 480;
     note_range := 3 |}.

(** Seventeen beats at four slices per beat: two windows of eight beats and
    one beat more. *)
Definition seventeen_beats : Midi :=
  {| beat_roll := replicate 68 [0; 1; 1];
     res := 4;
     total_ticks := 8160;
     tpb := 480;
     note_range := 3 |}.

(** Four beats: less than one window of eight beats. *)
Definition half_window : Midi :=
  {| beat_roll := replicate 16 [1; 0; 1];
     res := 4;
     total_ticks := 1920;
     tpb := 480;
     note_range := 3 |}.

(** Four beats whose rows have three cells, for a note range of two. *)
Definition wide_rows : Midi :=
  {| beat_roll := [[0; 1; 0]; [1; 0; 0]; [1; 1; 0]; [0; 1; 0]];
     res := 1;
     total_ticks := 1920;
     tpb := 480;
     note_range := 2 |}.

(** A backend like [trace_backend] that refuses an epoch without a
    training example. *)
Definition strict_backend : Keras :=
  {| Weights := list Sample;
     Prediction := list Sample;
     Blob := KModel (list Sample);
     initial_weights := fun _ _ => [];
     run_epoch := fun m _ training =>
       match training with
       | [] => Raise ValueError
       | _ :: _ => Ok (weights m ++ training)
       end;
     predict := fun m _ => weights m;
     serialize := fun m => m;
     deserialize := Some |}.

(** * Properties *)

(** ** Floats *)

Section Binary64.

Local Open Scope Q_scope.

Lemma pow2_pos e : 0 < pow2 e.
Proof. apply Qpower_0_lt. reflexivity. Qed.

Lemma pow2_nonzero e : ~ pow2 e == 0.
Proof. pose proof (pow2_pos e) as Hp. intros H. rewrite H in Hp. discriminate. Qed.

Lemma pow2_plus a b : pow2 (a + b) == pow2 a * pow2 b.
Proof. apply Qpower_plus. discriminate. Qed.

Lemma pow2_le a b : (a <= b)%Z -> pow2 a <= pow2 b.
Proof. intros H. apply Qpower_le_compat_l; [exact H|discriminate]. Qed.

Lemma pow2_lt a b : (a < b)%Z -> pow2 a < pow2 b.
Proof. intros H. apply Qpower_lt_compat_l; [exact H|reflexivity]. Qed.

Lemma pow2_lt_inv a b : pow2 a < pow2 b -> (a < b)%Z.
Proof. intros H. eapply Qpower_lt_compat_l_inv; [exact H|reflexivity]. Qed.

Lemma pow2_inject (n : Z) : (0 <= n)%Z -> pow2 n == inject_Z (2 ^ n).
Proof. intros H. unfold pow2. rewrite Zpower_Qpower by exact H. reflexivity. Qed.

(** *** Rounding to the nearest integer *)

Lemma round_half_even_bounds (v : Q) :
  (Qfloor v <= round_half_even v <= Qfloor v + 1)%Z.
Proof.
  unfold round_half_even.
  destruct (Qcompare _ _); [destruct (Z.even _)| |]; lia.
Qed.

Lemma round_half_even_Z (z : Z) : round_half_even (inject_Z z) = z.
Proof.
  unfold round_half_even. rewrite Qfloor_Z.
  assert (H : inject_Z z - inject_Z z < 1 # 2) by (ring_simplify; reflexivity).
  rewrite Qlt_alt in H. rewrite H. reflexivity.
Qed.

Lemma round_half_even_monotone (v w : Q) :
  v <= w -> (round_half_even v <= round_half_even w)%Z.
Proof.
  intros Hvw.
  pose proof (Qfloor_resp_le _ _ Hvw) as Hf.
  destruct (Z.eq_dec (Qfloor v) (Qfloor w)) as [Heq|Hne].
  - unfold round_half_even. rewrite <- Heq.
    assert (Hfrac : v - inject_Z (Qfloor v) <= w - inject_Z (Qfloor v)) by Lqa.lra.
    destruct (Qcompare (v - inject_Z (Qfloor v)) (1 # 2)) eqn:Ev;
      destruct (Qcompare (w - inject_Z (Qfloor v)) (1 # 2)) eqn:Ew;
      try (destruct (Z.even (Qfloor v))); try lia.
    all: try rewrite <- Qeq_alt in Ev; try rewrite <- Qlt_alt in Ev;
      try rewrite <- Qgt_alt in Ev; try rewrite <- Qeq_alt in Ew;
      try rewrite <- Qlt_alt in Ew; try rewrite <- Qgt_alt in Ew; Lqa.lra.
  - pose proof (round_half_even_bounds v). pose proof (round_half_even_bounds w). lia.
Qed.

(** *** The binade of a positive number *)

Lemma Z_log2_pow2 (p : Z) :
  (0 < p)%Z -> pow2 (Z.log2 p) <= inject_Z p /\ inject_Z p < pow2 (Z.log2 p + 1).
Proof.
  intros Hp. destruct (Z.log2_spec p Hp) as [Hlo Hhi].
  pose proof (Z.log2_nonneg p) as Hnn.
  rewrite !pow2_inject by lia. split.
  - rewrite <- Zle_Qle. exact Hlo.
  - rewrite <- Zlt_Qlt. replace (Z.log2 p + 1)%Z with (Z.succ (Z.log2 p)) by lia. exact Hhi.
Qed.

Lemma log2_floor_spec (x : Q) :
  0 < x -> pow2 (log2_floor x) <= x /\ x < pow2 (log2_floor x + 1).
Proof.
  intros Hx. destruct x as [p q].
  assert (Hp : (0 < p)%Z). { unfold Qlt in Hx. simpl in Hx. lia. }
  destruct (Z_log2_pow2 p Hp) as [Hplo Hphi].
  destruct (Z_log2_pow2 (Zpos q) ltac:(lia)) as [Hqlo Hqhi].
  unfold log2_floor. simpl Qnum. simpl Qden.
  set (lp := Z.log2 p) in *. set (lq := Z.log2 (Zpos q)) in *.
  assert (Hx' : p # q == inject_Z p / inject_Z (Zpos q)) by apply Qmake_Qdiv.
  assert (Hq0 : 0 < inject_Z (Zpos q)) by (rewrite <- (Zlt_Qlt 0); lia).
  destruct (Qle_bool (pow2 (lp - lq)) (p # q)) eqn:E.
  - apply Qle_bool_iff in E. split; [exact E|].
    rewrite Hx'. apply Qlt_shift_div_r; [exact Hq0|].
    replace (lp - lq + 1)%Z with ((lp + 1) + (- lq))%Z by lia.
    rewrite pow2_plus.
    assert (H1 : pow2 (- lq) * inject_Z (Zpos q) >= 1).
    { assert (H : pow2 (- lq) * pow2 lq == 1).
      { rewrite <- pow2_plus. replace (- lq + lq)%Z with 0%Z by lia. reflexivity. }
      rewrite <- H. apply Qmult_le_l; [apply pow2_pos|exact Hqlo]. }
    pose proof (pow2_pos (lp + 1)). pose proof (pow2_pos (- lq)). Lqa.nra.
  - assert (E' : p # q < pow2 (lp - lq)).
    { apply Qnot_le_lt. intros H. apply Qle_bool_iff in H. congruence. }
    split.
    + rewrite Hx'. apply Qle_shift_div_l; [exact Hq0|].
      replace (lp - lq - 1)%Z with (lp + (- (lq + 1)))%Z by lia.
      rewrite pow2_plus.
      assert (H1 : pow2 (- (lq + 1)) * inject_Z (Zpos q) <= 1).
      { assert (H : pow2 (- (lq + 1)) * pow2 (lq + 1) == 1).
        { rewrite <- pow2_plus. replace (- (lq + 1) + (lq + 1))%Z with 0%Z by lia. reflexivity. }
        rewrite <- H. apply Qmult_le_l; [apply pow2_pos|apply Qlt_le_weak, Hqhi]. }
      pose proof (pow2_pos lp). pose proof (pow2_pos (- (lq + 1))). Lqa.nra.
    + replace (lp - lq - 1 + 1)%Z with (lp - lq)%Z by lia. exact E'.
Qed.

Lemma log2_floor_unique (x : Q) (e : Z) :
  pow2 e <= x -> x < pow2 (e + 1) -> log2_floor x = e.
Proof.
  intros Hlo Hhi.
  assert (Hx : 0 < x) by (pose proof (pow2_pos e); Lqa.lra).
  destruct (log2_floor_spec x Hx) as [Hlo' Hhi'].
  assert (H1 : (e < log2_floor x + 1)%Z) by (apply pow2_lt_inv; Lqa.lra).
  assert (H2 : (log2_floor x < e + 1)%Z) by (apply pow2_lt_inv; Lqa.lra).
  lia.
Qed.

Lemma log2_floor_monotone (x y : Q) :
  0 < x -> x <= y -> (log2_floor x <= log2_floor y)%Z.
Proof.
  intros Hx Hxy.
  destruct (log2_floor_spec x Hx) as [Hlo _].
  destruct (log2_floor_spec y ltac:(Lqa.lra)) as [_ Hhi].
  assert (H : (log2_floor x < log2_floor y + 1)%Z) by (apply pow2_lt_inv; Lqa.lra).
  lia.
Qed.

(** *** Invariance under the representation of a rational *)

Lemma log2_floor_comp (x y : Q) : 0 < x -> x == y -> log2_floor x = log2_floor y.
Proof.
  intros Hx Hxy. destruct (log2_floor_spec x Hx) as [Hlo Hhi].
  symmetry. apply log2_floor_unique; rewrite <- Hxy; assumption.
Qed.

Lemma round_half_even_comp (v w : Q) : v == w -> round_half_even v = round_half_even w.
Proof.
  intros Hvw. unfold round_half_even.
  rewrite (Qfloor_comp _ _ Hvw).
  assert (H : v - inject_Z (Qfloor w) == w - inject_Z (Qfloor w)) by (rewrite Hvw; reflexivity).
  rewrite (Qcompare_comp _ _ H (1 # 2) (1 # 2) (Qeq_refl _)). reflexivity.
Qed.

Lemma round_positive_comp (x y : Q) :
  0 < x -> x == y -> round_positive x == round_positive y.
Proof.
  intros Hx Hxy. unfold round_positive, ulp, exponent.
  rewrite (log2_floor_comp x y Hx Hxy).
  set (u := pow2 (Z.max (log2_floor y) (-1022) - 52)).
  rewrite (round_half_even_comp (x / u) (y / u)) by (rewrite Hxy; reflexivity).
  reflexivity.
Qed.

Lemma round_positive_eq (x : Q) :
  round_positive x = inject_Z (round_half_even (x / ulp x)) * ulp x.
Proof. reflexivity. Qed.

Lemma below_next_binade (x : Q) : 0 < x -> x < pow2 (exponent x + 1).
Proof.
  intros Hx. destruct (log2_floor_spec x Hx) as [_ Hhi].
  eapply Qlt_le_trans; [exact Hhi|]. apply pow2_le. unfold exponent. lia.
Qed.

Lemma pow2_ratio (a b : Z) : pow2 a / pow2 b == pow2 (a - b).
Proof.
  replace (a - b)%Z with (a + - b)%Z by lia. rewrite pow2_plus.
  unfold pow2 at 4. rewrite Qpower_opp. reflexivity.
Qed.

Lemma significand_le (x : Q) :
  0 < x -> (0 <= round_half_even (x / ulp x) <= 2 ^ 53)%Z.
Proof.
  intros Hx. pose proof (pow2_pos (exponent x - 52)) as Hu. fold (ulp x) in Hu.
  split.
  - pose proof (round_half_even_bounds (x / ulp x)) as [Hlo _].
    assert (H0 : (Qfloor 0 <= Qfloor (x / ulp x))%Z).
    { apply Qfloor_resp_le. apply Qle_shift_div_l; [exact Hu|]. Lqa.lra. }
    change (Qfloor 0) with 0%Z in H0. lia.
  - rewrite <- (round_half_even_Z (2 ^ 53)). apply round_half_even_monotone.
    apply Qle_shift_div_r; [exact Hu|].
    rewrite <- pow2_inject by lia. unfold ulp. rewrite <- pow2_plus.
    replace (53 + (exponent x - 52))%Z with (exponent x + 1)%Z by lia.
    apply Qlt_le_weak, below_next_binade, Hx.
Qed.

Lemma round_positive_nonneg (x : Q) : 0 < x -> 0 <= round_positive x.
Proof.
  intros Hx. rewrite round_positive_eq.
  destruct (significand_le x Hx) as [Hlo _].
  apply Qmult_le_0_compat; [|apply Qlt_le_weak, pow2_pos].
  change 0 with (inject_Z 0). rewrite <- Zle_Qle. exact Hlo.
Qed.

Lemma round_positive_le_binade (x : Q) :
  0 < x -> round_positive x <= pow2 (exponent x + 1).
Proof.
  intros Hx. rewrite round_positive_eq.
  destruct (significand_le x Hx) as [_ Hhi].
  replace (exponent x + 1)%Z with (53 + (exponent x - 52))%Z by lia.
  rewrite pow2_plus. fold (ulp x).
  apply Qmult_le_compat_r; [|apply Qlt_le_weak, pow2_pos].
  rewrite pow2_inject by lia. rewrite <- Zle_Qle. exact Hhi.
Qed.

Lemma round_positive_ge_binade (x : Q) :
  0 < x -> (-1022 <= log2_floor x)%Z -> pow2 (exponent x) <= round_positive x.
Proof.
  intros Hx Hnormal. rewrite round_positive_eq.
  assert (He : exponent x = log2_floor x) by (unfold exponent; lia).
  destruct (log2_floor_spec x Hx) as [Hlo _]. rewrite <- He in Hlo.
  pose proof (pow2_pos (exponent x - 52)) as Hu. fold (ulp x) in Hu.
  assert (Hm : (2 ^ 52 <= round_half_even (x / ulp x))%Z).
  { rewrite <- (round_half_even_Z (2 ^ 52)). apply round_half_even_monotone.
    apply Qle_shift_div_l; [exact Hu|].
    rewrite <- pow2_inject by lia. unfold ulp. rewrite <- pow2_plus.
    replace (52 + (exponent x - 52))%Z with (exponent x) by lia. exact Hlo. }
  replace (exponent x) with (52 + (exponent x - 52))%Z at 1 by lia.
  rewrite pow2_plus. fold (ulp x).
  apply Qmult_le_compat_r; [|apply Qlt_le_weak, Hu].
  rewrite pow2_inject by lia. rewrite <- Zle_Qle. exact Hm.
Qed.

Lemma round_positive_monotone (x y : Q) :
  0 < x -> x <= y -> round_positive x <= round_positive y.
Proof.
  intros Hx Hxy. assert (Hy : 0 < y) by Lqa.lra.
  pose proof (log2_floor_monotone x y Hx Hxy) as Hl.
  destruct (Z.eq_dec (exponent x) (exponent y)) as [He|He].
  - rewrite !round_positive_eq. unfold ulp. rewrite He.
    pose proof (pow2_pos (exponent y - 52)) as Hu.
    apply Qmult_le_compat_r; [|apply Qlt_le_weak, Hu].
    rewrite <- Zle_Qle. apply round_half_even_monotone.
    apply Qmult_le_compat_r; [exact Hxy|].
    apply Qlt_le_weak, Qinv_lt_0_compat, Hu.
  - assert (Hlt : (exponent x < exponent y)%Z) by (unfold exponent in *; lia).
    assert (Hnormal : (-1022 <= log2_floor y)%Z) by (unfold exponent in *; lia).
    eapply Qle_trans; [apply round_positive_le_binade, Hx|].
    eapply Qle_trans; [|apply round_positive_ge_binade; assumption].
    apply pow2_le. lia.
Qed.

(** *** Numbers a float holds *)

Lemma round_positive_exact (x : Q) (m : Z) :
  0 < x -> x == inject_Z m * ulp x -> round_positive x == x.
Proof.
  intros Hx Hm. rewrite round_positive_eq.
  pose proof (pow2_pos (exponent x - 52)) as Hu. fold (ulp x) in Hu.
  assert (Hq : x / ulp x == inject_Z m).
  { rewrite Hm at 1. field. Lqa.lra. }
  rewrite (round_half_even_comp _ _ Hq), round_half_even_Z. symmetry. exact Hm.
Qed.

(** [m * 2^k] with [0 < m <= 2^53] and [k >= -1074] is a float. *)
Lemma round_positive_representable (m k : Z) :
  (0 < m <= 2 ^ 53)%Z -> (-1074 <= k)%Z ->
  round_positive (inject_Z m * pow2 k) == inject_Z m * pow2 k.
Proof.
  intros [Hm0 Hm] Hk.
  set (x := inject_Z m * pow2 k).
  assert (Hx : 0 < x).
  { unfold x. apply Qmult_lt_0_compat; [|apply pow2_pos].
    change 0 with (inject_Z 0). rewrite <- Zlt_Qlt. exact Hm0. }
  destruct (Z.eq_dec m (2 ^ 53)%Z) as [->|Hne].
  - (* the next power of two *)
    assert (Hpow : x == pow2 (k + 53)).
    { unfold x. rewrite <- pow2_inject by lia. rewrite <- pow2_plus.
      replace (53 + k)%Z with (k + 53)%Z by lia. reflexivity. }
    assert (Hl : log2_floor x = (k + 53)%Z).
    { apply log2_floor_unique; rewrite Hpow; [apply Qle_refl|apply pow2_lt; lia]. }
    apply (round_positive_exact x (2 ^ 52) Hx).
    unfold ulp, exponent. rewrite Hl.
    replace (Z.max (k + 53) (-1022) - 52)%Z with (k + 1)%Z by lia.
    rewrite <- pow2_inject by lia. rewrite <- pow2_plus, Hpow.
    replace (52 + (k + 1))%Z with (k + 53)%Z by lia. reflexivity.
  - assert (Hlt : x < pow2 (k + 53)).
    { unfold x. replace (k + 53)%Z with (53 + k)%Z by lia. rewrite pow2_plus.
      apply Qmult_lt_compat_r; [apply pow2_pos|].
      rewrite pow2_inject by lia. rewrite <- Zlt_Qlt. lia. }
    assert (Hl : (log2_floor x < k + 53)%Z).
    { destruct (log2_floor_spec x Hx) as [Hlo _]. apply pow2_lt_inv. Lqa.lra. }
    assert (Hd : (0 <= k - (exponent x - 52))%Z) by (unfold exponent; lia).
    apply (round_positive_exact x (m * 2 ^ (k - (exponent x - 52))) Hx).
    rewrite inject_Z_mult, <- pow2_inject by exact Hd.
    unfold ulp. rewrite <- Qmult_assoc, <- pow2_plus.
    replace (k - (exponent x - 52) + (exponent x - 52))%Z with k by lia.
    reflexivity.
Qed.

Lemma round_positive_float (x : Q) :
  0 < x -> 0 < round_positive x -> round_positive (round_positive x) == round_positive x.
Proof.
  intros Hx Hy. destruct (significand_le x Hx) as [Hlo Hhi].
  assert (Heq : round_positive x
                = inject_Z (round_half_even (x / ulp x)) * pow2 (exponent x - 52))
    by reflexivity.
  rewrite Heq in Hy |- *. clear Heq.
  set (m := round_half_even (x / ulp x)) in *.
  assert (Hm : (0 < m)%Z).
  { destruct (Z.eq_dec m 0%Z) as [H0|H0]; [|lia].
    rewrite H0 in Hy. rewrite Qmult_0_l in Hy. discriminate Hy. }
  apply round_positive_representable; [lia|]. unfold exponent. lia.
Qed.

(** *** Signed numbers *)

Lemma binary64_positive (x : Q) : 0 < x -> binary64 x == round_positive x.
Proof.
  intros Hx. unfold binary64. rewrite Qgt_alt in Hx. rewrite Hx. apply Qred_correct.
Qed.

Lemma binary64_negative (x : Q) : x < 0 -> binary64 x == - round_positive (- x).
Proof.
  intros Hx. unfold binary64. rewrite Qlt_alt in Hx. rewrite Hx. apply Qred_correct.
Qed.

Lemma binary64_zero (x : Q) : x == 0 -> binary64 x = 0.
Proof. intros Hx. unfold binary64. rewrite Qeq_alt in Hx. rewrite Hx. reflexivity. Qed.

Lemma binary64_sign (x : Q) :
  (0 < x -> 0 <= binary64 x) /\ (x < 0 -> binary64 x <= 0).
Proof.
  split; intros Hx.
  - rewrite binary64_positive by exact Hx. apply round_positive_nonneg, Hx.
  - rewrite binary64_negative by exact Hx.
    pose proof (round_positive_nonneg (- x) ltac:(Lqa.lra)). Lqa.lra.
Qed.

Theorem binary64_monotone (x y : Q) : x <= y -> binary64 x <= binary64 y.
Proof.
  intros Hxy.
  destruct (Q_dec x 0) as [[Hx|Hx]|Hx], (Q_dec y 0) as [[Hy|Hy]|Hy]; try Lqa.lra.
  - rewrite !binary64_negative by assumption.
    pose proof (round_positive_monotone (- y) (- x) ltac:(Lqa.lra) ltac:(Lqa.lra)). Lqa.lra.
  - pose proof (proj2 (binary64_sign x) Hx). pose proof (proj1 (binary64_sign y) Hy). Lqa.lra.
  - pose proof (proj2 (binary64_sign x) Hx). rewrite (binary64_zero y Hy). Lqa.lra.
  - rewrite !binary64_positive by assumption.
    apply round_positive_monotone; assumption.
  - rewrite (binary64_zero x Hx). apply (proj1 (binary64_sign y)), Hy.
  - rewrite (binary64_zero x Hx), (binary64_zero y Hy). apply Qle_refl.
Qed.

Lemma binary64_comp (x y : Q) : x == y -> binary64 x = binary64 y.
Proof.
  intros Hxy. unfold binary64.
  rewrite (Qcompare_comp x y Hxy 0 0 (Qeq_refl 0)).
  destruct (Qcompare y 0) eqn:E; [reflexivity| |].
  - rewrite <- Qlt_alt in E. apply Qred_complete.
    rewrite (round_positive_comp (- x) (- y)); [reflexivity|Lqa.lra|rewrite Hxy; reflexivity].
  - rewrite <- Qgt_alt in E. apply Qred_complete.
    apply round_positive_comp; [Lqa.lra|exact Hxy].
Qed.

Theorem binary64_idempotent (x : Q) : binary64 (binary64 x) == binary64 x.
Proof.
  destruct (Q_dec x 0) as [[Hx|Hx]|Hx].
  - assert (Hx' : 0 < - x) by Lqa.lra.
    pose proof (round_positive_nonneg (- x) Hx') as Hy.
    rewrite (binary64_comp _ _ (binary64_negative x Hx)).
    rewrite (binary64_negative x Hx).
    destruct (Qle_lt_or_eq _ _ Hy) as [Hpos|Hzero].
    + rewrite binary64_negative by Lqa.lra.
      rewrite (round_positive_comp (- - round_positive (- x)) (round_positive (- x)))
        by (try Lqa.lra; ring).
      rewrite round_positive_float by assumption. reflexivity.
    + rewrite binary64_zero by Lqa.lra. Lqa.lra.
  - pose proof (round_positive_nonneg x Hx) as Hy.
    rewrite (binary64_comp _ _ (binary64_positive x Hx)).
    rewrite (binary64_positive x Hx).
    destruct (Qle_lt_or_eq _ _ Hy) as [Hpos|Hzero].
    + rewrite binary64_positive by assumption.
      apply round_positive_float; assumption.
    + rewrite binary64_zero by Lqa.lra. Lqa.lra.
  - rewrite (binary64_zero x Hx). reflexivity.
Qed.

Lemma inject_Z_pos (z : Z) : (0 < z)%Z -> 0 < inject_Z z.
Proof. intros H. change 0 with (inject_Z 0). rewrite <- Zlt_Qlt. exact H. Qed.

Lemma inject_Z_neg (z : Z) : (z < 0)%Z -> inject_Z z < 0.
Proof. intros H. change 0 with (inject_Z 0). rewrite <- Zlt_Qlt. exact H. Qed.

(** An integer of at most 53 bits is a float. *)
Theorem binary64_integer (z : Z) :
  (Z.abs z <= 2 ^ 53)%Z -> binary64 (inject_Z z) == inject_Z z.
Proof.
  intros Hz.
  assert (Hpos : forall m : Z, (0 < m <= 2 ^ 53)%Z ->
                 round_positive (inject_Z m) == inject_Z m).
  { intros m Hm.
    assert (H1 : inject_Z m == inject_Z m * pow2 0) by (unfold pow2; simpl; ring).
    rewrite (round_positive_comp _ _ (inject_Z_pos m ltac:(lia)) H1).
    rewrite round_positive_representable by lia. symmetry. exact H1. }
  destruct (Z.lt_trichotomy z 0%Z) as [Hneg|[->|Hp]].
  - rewrite binary64_negative by (apply inject_Z_neg; lia).
    rewrite <- inject_Z_opp, Hpos by lia. rewrite inject_Z_opp. ring.
  - reflexivity.
  - rewrite binary64_positive by (apply inject_Z_pos; lia).
    apply Hpos. lia.
Qed.

(** Doubling a number of the normal range doubles its float. *)
Lemma round_positive_double (x : Q) :
  pow2 (-1022) <= x -> round_positive (2 * x) == 2 * round_positive x.
Proof.
  intros Hn. assert (Hx : 0 < x) by (pose proof (pow2_pos (-1022)); Lqa.lra).
  destruct (log2_floor_spec x Hx) as [Hlo Hhi].
  assert (Hl : (-1022 <= log2_floor x)%Z).
  { assert (H : (-1022 < log2_floor x + 1)%Z) by (apply pow2_lt_inv; Lqa.lra). lia. }
  assert (Hl2 : log2_floor (2 * x) = (log2_floor x + 1)%Z).
  { apply log2_floor_unique.
    - replace (log2_floor x + 1)%Z with (1 + log2_floor x)%Z by lia.
      rewrite pow2_plus. change (pow2 1) with 2. Lqa.lra.
    - replace (log2_floor x + 1 + 1)%Z with (1 + (log2_floor x + 1))%Z by lia.
      rewrite pow2_plus. change (pow2 1) with 2. Lqa.lra. }
  assert (Hu : ulp (2 * x) == 2 * ulp x).
  { unfold ulp, exponent. rewrite Hl2.
    replace (Z.max (log2_floor x + 1) (-1022) - 52)%Z
      with (1 + (Z.max (log2_floor x) (-1022) - 52))%Z by lia.
    rewrite pow2_plus. reflexivity. }
  rewrite !round_positive_eq.
  pose proof (pow2_pos (exponent x - 52)) as Hup. fold (ulp x) in Hup.
  rewrite (round_half_even_comp (2 * x / ulp (2 * x)) (x / ulp x)).
  - rewrite Hu. ring.
  - rewrite Hu. field. Lqa.lra.
Qed.

Theorem binary64_double (z : Z) :
  (0 < z)%Z -> binary64 (inject_Z (2 * z)) == 2 * binary64 (inject_Z z).
Proof.
  intros Hz.
  assert (Hq : 0 < inject_Z z) by (apply inject_Z_pos; lia).
  assert (H1 : 1 <= inject_Z z) by (change 1 with (inject_Z 1); rewrite <- Zle_Qle; lia).
  rewrite (binary64_comp (inject_Z (2 * z)) (2 * inject_Z z))
    by (rewrite inject_Z_mult; reflexivity).
  rewrite !binary64_positive by Lqa.lra.
  apply round_positive_double.
  eapply Qle_trans; [|exact H1]. change 1 with (pow2 0). apply pow2_le. lia.
Qed.

(** [binary64] is a rounding to nearest, and so is exact arithmetic. *)
Lemma binary64_rounding : rounding_to_nearest binary64.
Proof.
  constructor.
  - exact binary64_monotone.
  - exact binary64_idempotent.
  - exact binary64_integer.
  - exact binary64_double.
Qed.

Lemma exact_rounding : rounding_to_nearest exact.
Proof.
  constructor; unfold exact.
  - intros a b H. exact H.
  - intros a. reflexivity.
  - intros z _. reflexivity.
  - intros z _. rewrite inject_Z_mult. reflexivity.
Qed.

End Binary64.

(** ** Arrays *)

Section ArrayFacts.

Lemma bind_Ok {A B : Type} (m : result A) (f : A -> result B) (b : B) :
  m ≫= f = Ok b -> exists a, m = Ok a /\ f a = Ok b.
Proof.
  destruct m as [a|e]; simpl; intros H; [eauto | discriminate].
Qed.

Lemma np_zeros_Ok (n t r : Z) :
  0 <= n -> 0 <= t -> 0 <= r ->
  np_zeros n t r = Ok (replicate (Z.to_nat n) (zeros (Z.to_nat t) (Z.to_nat r))).
Proof.
  intros Hn Ht Hr. unfold np_zeros.
  destruct (Z.ltb_spec n 0); [lia|].
  destruct (Z.ltb_spec t 0); [lia|].
  destruct (Z.ltb_spec r 0); [lia|]. reflexivity.
Qed.

Lemma np_zeros_negative (n t r : Z) :
  n < 0 \/ t < 0 \/ r < 0 -> np_zeros n t r = Raise ValueError.
Proof.
  intros H. unfold np_zeros.
  destruct (Z.ltb_spec n 0); [reflexivity|].
  destruct (Z.ltb_spec t 0); [reflexivity|].
  destruct (Z.ltb_spec r 0); [reflexivity|]. lia.
Qed.

Lemma np_zeros_inv (n t r : Z) (T : Tensor3) :
  np_zeros n t r = Ok T ->
  0 <= n /\ 0 <= t /\ 0 <= r /\
  T = replicate (Z.to_nat n) (zeros (Z.to_nat t) (Z.to_nat r)).
Proof.
  unfold np_zeros.
  destruct (Z.ltb_spec n 0); [discriminate|].
  destruct (Z.ltb_spec t 0); [discriminate|].
  destruct (Z.ltb_spec r 0); [discriminate|].
  simpl. intros [= <-]. auto.
Qed.

Lemma zeros_shape (t r : nat) :
  length (zeros t r) = t /\ Forall (fun row => length row = r) (zeros t r).
Proof.
  unfold zeros. split; [apply length_replicate|].
  apply Forall_replicate, length_replicate.
Qed.

Lemma py_slice_length {A : Type} (l : list A) (a b : nat) :
  (a <= b)%nat -> (b <= length l)%nat -> length (py_slice l a b) = (b - a)%nat.
Proof.
  intros Hab Hb. unfold py_slice. rewrite length_take, length_drop. lia.
Qed.

Lemma py_slice_Forall {A : Type} (P : A -> Prop) (l : list A) (a b : nat) :
  Forall P l -> Forall P (py_slice l a b).
Proof. intros H. unfold py_slice. apply Forall_take, Forall_drop, H. Qed.

Lemma rectangular_Forall (c : nat) (m : Matrix) :
  rectangular c m = true <-> Forall (fun row => length row = c) m.
Proof.
  unfold rectangular. rewrite forallb_forall, Forall_forall.
  split; intros H row Hin.
  - apply Nat.eqb_eq, H, list_elem_of_In, Hin.
  - apply Nat.eqb_eq, H, list_elem_of_In, Hin.
Qed.

Lemma broadcast_axis_same {A : Type} (n : nat) (l : list A) :
  length l = n -> broadcast_axis n l = Ok l.
Proof. intros H. unfold broadcast_axis. rewrite H, Nat.eqb_refl. reflexivity. Qed.

Lemma map_result_same {A : Type} (f : A -> result A) (l : list A) :
  Forall (fun a => f a = Ok a) l -> map_result f l = Ok l.
Proof.
  induction 1 as [|a l Ha _ IH]; simpl; [reflexivity|].
  rewrite Ha. simpl. rewrite IH. reflexivity.
Qed.

(** A source of the very shape of the destination is stored as it is. *)
Lemma broadcast_block_same (t r : nat) (src : Matrix) :
  (0 < t)%nat -> length src = t -> Forall (fun row => length row = r) src ->
  broadcast_block t r src = Ok src.
Proof.
  intros Ht Hlen Hrows. unfold broadcast_block.
  destruct src as [|row src']; [simpl in Hlen; lia|].
  assert (Hrow : length row = r) by (inversion Hrows; assumption).
  rewrite Hrow.
  destruct (rectangular r (row :: src')) eqn:Hrect.
  - rewrite map_result_same.
    + simpl. apply broadcast_axis_same, Hlen.
    + eapply Forall_impl; [exact Hrows|]. intros a Ha. apply broadcast_axis_same, Ha.
  - apply rectangular_Forall in Hrows. congruence.
Qed.

Lemma setitem_same (dst : Tensor3) (i t r : nat) (src : Matrix) :
  (i < length dst)%nat -> (0 < t)%nat -> length src = t ->
  Forall (fun row => length row = r) src ->
  setitem dst i t r src = Ok (<[i := src]> dst).
Proof.
  intros Hi Ht Hlen Hrows. unfold setitem.
  destruct (Nat.ltb_spec i (length dst)); [|lia].
  rewrite broadcast_block_same by assumption. reflexivity.
Qed.

Lemma setitem_inv (dst dst' : Tensor3) (i t r : nat) (src : Matrix) :
  setitem dst i t r src = Ok dst' ->
  exists block, broadcast_block t r src = Ok block /\ dst' = <[i := block]> dst.
Proof.
  unfold setitem. destruct (Nat.ltb i (length dst)); [|discriminate].
  intros H. apply bind_Ok in H as (block & Hb & [= <-]). eauto.
Qed.

End ArrayFacts.

(** Whatever NumPy accepts to store in a block of shape [(t, r)] has that
    shape once stored. *)
Section BroadcastShape.

Lemma broadcast_axis_length {A : Type} (n : nat) (l l' : list A) :
  broadcast_axis n l = Ok l' -> length l' = n.
Proof.
  unfold broadcast_axis. destruct (Nat.eqb_spec (length l) n) as [Hl|Hl].
  - intros [= <-]. exact Hl.
  - destruct l as [|x [|? ?]]; try discriminate.
    intros [= <-]. apply length_replicate.
Qed.

Lemma broadcast_axis_Forall {A : Type} (P : A -> Prop) (n : nat) (l l' : list A) :
  broadcast_axis n l = Ok l' -> Forall P l -> Forall P l'.
Proof.
  unfold broadcast_axis. destruct (Nat.eqb (length l) n).
  - intros [= <-] H. exact H.
  - destruct l as [|x [|? ?]]; try discriminate.
    intros [= <-] H. apply Forall_replicate. inversion H; assumption.
Qed.

Lemma map_result_Forall {A B : Type} (f : A -> result B) (P : B -> Prop)
    (l : list A) (l' : list B) :
  (forall a b, f a = Ok b -> P b) -> map_result f l = Ok l' -> Forall P l'.
Proof.
  intros Hf. revert l'. induction l as [|a l IH]; simpl; intros l' H.
  - injection H as <-. constructor.
  - apply bind_Ok in H as (b & Hb & H).
    apply bind_Ok in H as (bs & Hbs & [= <-]).
    constructor; [eapply Hf, Hb | apply IH, Hbs].
Qed.

Lemma broadcast_block_shape (t r : nat) (src block : Matrix) :
  broadcast_block t r src = Ok block ->
  length block = t /\ Forall (fun row => length row = r) block.
Proof.
  unfold broadcast_block. destruct src as [|row src'].
  - destruct (Nat.eqb_spec r 0) as [->|]; [|discriminate].
    intros [= <-]. split; [apply length_replicate|].
    apply Forall_replicate. reflexivity.
  - destruct (rectangular (length row) (row :: src')); [|discriminate].
    intros H. apply bind_Ok in H as (rows & Hrows & H). split.
    + eapply broadcast_axis_length, H.
    + eapply broadcast_axis_Forall; [exact H|].
      eapply map_result_Forall; [|exact Hrows].
      intros a b Hb. eapply broadcast_axis_length, Hb.
Qed.

Lemma has_shape_replicate (n t r : nat) : has_shape n t r (replicate n (zeros t r)).
Proof.
  split; [apply length_replicate|]. apply Forall_replicate, zeros_shape.
Qed.

Lemma setitem_shape (n t r i : nat) (dst dst' : Tensor3) (src : Matrix) :
  has_shape n t r dst -> setitem dst i t r src = Ok dst' -> has_shape n t r dst'.
Proof.
  intros [Hlen Hall] H. apply setitem_inv in H as (block & Hb & ->).
  split; [rewrite length_insert; exact Hlen|].
  apply Forall_insert; [exact Hall|]. eapply broadcast_block_shape, Hb.
Qed.

End BroadcastShape.

(** ** The window loop *)

Section WindowLoop.

Variable roll : Matrix.
Variables n t r : nat.

(** The loop never touches the last row of [y]: iteration [i] writes row
    [i - 1], and only when [0 < i]. *)
Lemma window_step_last_target (Xy Xy' : Tensor3 * Tensor3) (i : nat) :
  (i < n)%nat ->
  window_step roll t r Xy i = Ok Xy' ->
  Xy'.2 !! (n - 1)%nat = Xy.2 !! (n - 1)%nat.
Proof.
  intros Hi H. unfold window_step in H.
  apply bind_Ok in H as (X' & _ & H).
  destruct (Nat.ltb_spec 0 i).
  - apply bind_Ok in H as (y' & Hy & [= <-]). simpl.
    apply setitem_inv in Hy as (block & _ & ->).
    apply list_lookup_insert_ne. lia.
  - injection H as <-. reflexivity.
Qed.

Lemma window_loop_last_target (a k : nat) (Xy Xy' : Tensor3 * Tensor3) :
  (a + k <= n)%nat ->
  for_each (window_step roll t r) Xy (seq a k) = Ok Xy' ->
  Xy'.2 !! (n - 1)%nat = Xy.2 !! (n - 1)%nat.
Proof.
  revert a Xy. induction k as [|k IH]; simpl; intros a Xy Hk H.
  - injection H as <-. reflexivity.
  - apply bind_Ok in H as (Xy1 & Hstep & H).
    rewrite (IH (S a) Xy1) by (assumption || lia).
    eapply window_step_last_target; [|exact Hstep]. lia.
Qed.

(** Every iteration keeps the shape of both tensors. *)
Lemma window_step_shape (Xy Xy' : Tensor3 * Tensor3) (i : nat) :
  has_shape n t r Xy.1 -> has_shape n t r Xy.2 ->
  window_step roll t r Xy i = Ok Xy' ->
  has_shape n t r Xy'.1 /\ has_shape n t r Xy'.2.
Proof.
  intros HX Hy H. unfold window_step in H.
  apply bind_Ok in H as (X' & HX' & H).
  apply (setitem_shape n) in HX'; [|exact HX].
  destruct (Nat.ltb 0 i).
  - apply bind_Ok in H as (y' & Hy' & [= <-]). simpl.
    split; [exact HX'|]. eapply setitem_shape; [exact Hy|exact Hy'].
  - injection H as <-. simpl. auto.
Qed.

Lemma window_loop_shape (l : list nat) (Xy Xy' : Tensor3 * Tensor3) :
  has_shape n t r Xy.1 -> has_shape n t r Xy.2 ->
  for_each (window_step roll t r) Xy l = Ok Xy' ->
  has_shape n t r Xy'.1 /\ has_shape n t r Xy'.2.
Proof.
  revert Xy. induction l as [|i l IH]; simpl; intros Xy HX Hy H.
  - injection H as <-. auto.
  - apply bind_Ok in H as (Xy1 & Hstep & H).
    destruct (window_step_shape _ _ _ HX Hy Hstep) as [HX1 Hy1].
    exact (IH Xy1 HX1 Hy1 H).
Qed.

Lemma X_after_length (k : nat) : length (X_after roll n t r k) = n.
Proof. unfold X_after. rewrite length_fmap, length_seq. reflexivity. Qed.

Lemma y_after_length (k : nat) : length (y_after roll n t r k) = n.
Proof. unfold y_after. rewrite length_fmap, length_seq. reflexivity. Qed.

Lemma X_after_lookup (k i : nat) :
  (i < n)%nat ->
  X_after roll n t r k !! i
  = Some (if Nat.ltb i k then window roll t i else zeros t r).
Proof.
  intros Hi. unfold X_after. rewrite list_lookup_fmap, lookup_seq_lt by lia.
  reflexivity.
Qed.

Lemma y_after_lookup (k i : nat) :
  (i < n)%nat ->
  y_after roll n t r k !! i
  = Some (if Nat.ltb (S i) k then window roll t (i + 2) else zeros t r).
Proof.
  intros Hi. unfold y_after. rewrite list_lookup_fmap, lookup_seq_lt by lia.
  reflexivity.
Qed.

Lemma X_after_insert (k : nat) :
  (k < n)%nat ->
  <[k := window roll t k]> (X_after roll n t r k) = X_after roll n t r (S k).
Proof.
  intros Hk. apply list_eq. intros i.
  destruct (decide (i < n)%nat) as [Hi|Hi].
  - rewrite (X_after_lookup (S k) i Hi).
    destruct (decide (i = k)) as [->|Hne].
    + rewrite list_lookup_insert_eq by (rewrite X_after_length; lia).
      destruct (Nat.ltb_spec k (S k)); [reflexivity|lia].
    + rewrite list_lookup_insert_ne by congruence.
      rewrite (X_after_lookup k i Hi).
      destruct (Nat.ltb_spec i k), (Nat.ltb_spec i (S k)); try reflexivity; lia.
  - rewrite !lookup_ge_None_2; [reflexivity| |].
    + rewrite X_after_length. lia.
    + rewrite length_insert, X_after_length. lia.
Qed.

Lemma y_after_insert (k : nat) :
  (0 < k)%nat -> (k < n)%nat ->
  <[(k - 1)%nat := window roll t (k + 1)]> (y_after roll n t r k)
  = y_after roll n t r (S k).
Proof.
  intros Hk0 Hk. apply list_eq. intros i.
  destruct (decide (i < n)%nat) as [Hi|Hi].
  - rewrite (y_after_lookup (S k) i Hi).
    destruct (decide (i = k - 1)%nat) as [->|Hne].
    + rewrite list_lookup_insert_eq by (rewrite y_after_length; lia).
      destruct (Nat.ltb_spec (S (k - 1)) (S k)); [|lia].
      do 2 f_equal. lia.
    + rewrite list_lookup_insert_ne by congruence.
      rewrite (y_after_lookup k i Hi).
      destruct (Nat.ltb_spec (S i) k), (Nat.ltb_spec (S i) (S k)); try reflexivity; lia.
  - rewrite !lookup_ge_None_2; [reflexivity| |].
    + rewrite y_after_length. lia.
    + rewrite length_insert, y_after_length. lia.
Qed.

Lemma after_0 :
  X_after roll n t r 0 = replicate n (zeros t r) /\
  y_after roll n t r 0 = replicate n (zeros t r).
Proof.
  split; apply list_eq; intros i; unfold X_after, y_after;
    rewrite list_lookup_fmap;
    (destruct (decide (i < n)%nat);
     [rewrite lookup_seq_lt, lookup_replicate_2 by lia; reflexivity
     |rewrite lookup_seq_ge by lia; symmetry; apply lookup_replicate_None; lia]).
Qed.

(** From here on the roll is a matrix with [r] columns that holds [n + 1]
    windows of [t > 0] slices. *)
Hypothesis roll_rows : Forall (fun row => length row = r) roll.
Hypothesis roll_long : ((n + 1) * t <= length roll)%nat.
Hypothesis window_nonempty : (0 < t)%nat.

Lemma window_full (i : nat) :
  (i <= n)%nat ->
  length (window roll t i) = t /\ Forall (fun row => length row = r) (window roll t i).
Proof.
  intros Hi. unfold window. split.
  - rewrite py_slice_length; nia.
  - apply py_slice_Forall, roll_rows.
Qed.

(** One iteration of the loop, in closed form. *)
Lemma window_step_after (k : nat) :
  (k < n)%nat ->
  window_step roll t r (X_after roll n t r k, y_after roll n t r k) k
  = Ok (X_after roll n t r (S k), y_after roll n t r (S k)).
Proof.
  intros Hk. unfold window_step. simpl.
  destruct (window_full k) as [HXl HXr]; [lia|].
  fold (window roll t k).
  rewrite (setitem_same (X_after roll n t r k) k t r (window roll t k));
    [|rewrite X_after_length; lia|assumption..].
  simpl. rewrite X_after_insert by assumption.
  destruct (Nat.ltb_spec 0 k) as [Hk0|Hk0].
  - destruct (window_full (k + 1)) as [Hyl Hyr]; [lia|].
    replace (py_slice roll (k * t + t) (k * t + t * 2)) with (window roll t (k + 1))
      by (unfold window; f_equal; lia).
    rewrite (setitem_same (y_after roll n t r k));
      [|rewrite y_after_length; lia|assumption..].
    simpl. rewrite y_after_insert by assumption. reflexivity.
  - (* no target row is written at [k = 0], and none counts as written
       after one iteration either *)
    assert (k = 0)%nat as -> by lia. reflexivity.
Qed.

Lemma window_loop_after (a k : nat) :
  (a + k <= n)%nat ->
  for_each (window_step roll t r)
    (X_after roll n t r a, y_after roll n t r a) (seq a k)
  = Ok (X_after roll n t r (a + k), y_after roll n t r (a + k)).
Proof.
  revert a. induction k as [|k IH]; simpl; intros a Hk.
  - rewrite Nat.add_0_r. reflexivity.
  - rewrite window_step_after by lia. simpl.
    rewrite IH by lia. do 3 f_equal; lia.
Qed.

End WindowLoop.

(** ** The constructor *)

Section Constructor.

Context `{K : Keras}.
Variable rnd : Q -> Q.

(** What a successful construction went through. *)
Lemma Network_init_inv (midi : Midi) (beats : Z) (net : Network) :
  Network_init rnd midi beats = Ok net ->
  exists n Xy,
    window_count rnd midi beats = Ok n /\
    windows (beat_roll midi) n (beats * res midi) (note_range midi) = Ok Xy /\
    N net = n /\ time_step net = beats * res midi /\ midi_in net = midi /\
    beats_in_window net = beats /\ X net = Xy.1 /\ y net = Xy.2.
Proof.
  unfold Network_init. intros H.
  apply bind_Ok in H as (n & Hn & H).
  apply bind_Ok in H as (Xy & HXy & H).
  injection H as <-. exists n, Xy. repeat split; assumption.
Qed.

(** Declaring the layers and the model raises nothing (Keras accepts
    every positive dimension): construction succeeds as soon as the
    windows are extracted. *)
Lemma Network_init_Ok (midi : Midi) (beats n : Z) (Xy : Tensor3 * Tensor3) :
  window_count rnd midi beats = Ok n ->
  windows (beat_roll midi) n (beats * res midi) (note_range midi) = Ok Xy ->
  exists net, Network_init rnd midi beats = Ok net.
Proof.
  intros Hn HXy. unfold Network_init. rewrite Hn. simpl. rewrite HXy. simpl.
  eexists. reflexivity.
Qed.

(** The tensors in closed form, for a roll that holds the windows read. *)
Lemma windows_closed_form (roll : Matrix) (n t r : Z) :
  0 <= n -> 0 < t -> 0 <= r ->
  Forall (fun row => length row = Z.to_nat r) roll ->
  (n + 1) * t <= Z.of_nat (length roll) ->
  windows roll n t r
  = Ok (X_after roll (Z.to_nat n) (Z.to_nat t) (Z.to_nat r) (Z.to_nat n),
        y_after roll (Z.to_nat n) (Z.to_nat t) (Z.to_nat r) (Z.to_nat n)).
Proof.
  intros Hn Ht Hr Hrows Hlong. unfold windows.
  rewrite np_zeros_Ok by lia. simpl.
  assert (Hlong' : ((Z.to_nat n + 1) * Z.to_nat t <= length roll)%nat) by nia.
  assert (Ht' : (0 < Z.to_nat t)%nat) by lia.
  destruct (after_0 roll (Z.to_nat n) (Z.to_nat t) (Z.to_nat r)) as [<- <-].
  apply (window_loop_after roll (Z.to_nat n) (Z.to_nat t) (Z.to_nat r)) with (a := 0%nat);
    (assumption || lia).
Qed.

Lemma windows_shape (roll : Matrix) (n t r : Z) (Xy : Tensor3 * Tensor3) :
  windows roll n t r = Ok Xy ->
  has_shape (Z.to_nat n) (Z.to_nat t) (Z.to_nat r) Xy.1 /\
  has_shape (Z.to_nat n) (Z.to_nat t) (Z.to_nat r) Xy.2.
Proof.
  unfold windows. intros H.
  apply bind_Ok in H as (X0 & HX0 & H). apply bind_Ok in H as (y0 & Hy0 & H).
  apply np_zeros_inv in HX0 as (_ & _ & _ & ->).
  apply np_zeros_inv in Hy0 as (_ & _ & _ & ->).
  eapply window_loop_shape; [| |exact H]; apply has_shape_replicate.
Qed.

(** X1.  Every successful construction yields tensors of shape
    [(N, time_step, note_range)], whatever the roll. *)
Lemma constructed_shape (midi : Midi) (beats : Z) (net : Network) :
  Network_init rnd midi beats = Ok net ->
  time_step net = beats * res midi /\
  has_shape (Z.to_nat (N net)) (Z.to_nat (time_step net))
    (Z.to_nat (note_range midi)) (X net) /\
  has_shape (Z.to_nat (N net)) (Z.to_nat (time_step net))
    (Z.to_nat (note_range midi)) (y net).
Proof.
  intros Hnet.
  destruct (Network_init_inv _ _ _ Hnet) as (n & Xy & _ & HXy & -> & -> & _ & _ & -> & ->).
  split; [reflexivity|]. exact (windows_shape _ _ _ _ _ HXy).
Qed.

(** C7.  For a piano roll that is a matrix of [note_range] columns holding
    the windows of its [N >= 1] examples, construction succeeds; [X] and [y]
    both have shape [(N, time_step, note_range)] with
    [time_step = beats_in_window * res], and [X[i]] is the slice
    [beat_roll[i * time_step : (i + 1) * time_step]] for every [i] in
    [[0, N)]. *)
Theorem window_tensors (midi : Midi) (beats n : Z) :
  window_count rnd midi beats = Ok n ->
  1 <= n ->
  well_shaped midi beats n ->
  exists net,
    Network_init rnd midi beats = Ok net /\
    N net = n /\
    time_step net = beats * res midi /\
    has_shape (Z.to_nat (N net)) (Z.to_nat (time_step net))
      (Z.to_nat (note_range midi)) (X net) /\
    has_shape (Z.to_nat (N net)) (Z.to_nat (time_step net))
      (Z.to_nat (note_range midi)) (y net) /\
    forall i : nat,
      (i < Z.to_nat (N net))%nat ->
      X net !! i
      = Some (py_slice (beat_roll midi)
                (i * Z.to_nat (time_step net))
                ((i + 1) * Z.to_nat (time_step net))).
Proof.
  intros Hn Hn1 (Ht & Hr & Hrows & Hlong).
  pose proof (windows_closed_form (beat_roll midi) n (beats * res midi)
                (note_range midi)) as HXy.
  specialize (HXy ltac:(lia) Ht ltac:(lia) Hrows Hlong).
  destruct (Network_init_Ok midi beats n _ Hn HXy) as [net Hnet].
  exists net. split; [exact Hnet|].
  destruct (Network_init_inv _ _ _ Hnet) as (n' & Xy & Hn' & HXy' & HN & Hts & _ & _ & HX & Hy).
  assert (n' = n) as -> by congruence.
  rewrite HXy in HXy'. injection HXy' as <-. simpl in HX, Hy.
  rewrite HN, Hts. split; [reflexivity|]. split; [reflexivity|].
  destruct (windows_shape _ _ _ _ _ HXy) as [HsX Hsy]. simpl in HsX, Hsy.
  rewrite HX, Hy. split; [exact HsX|]. split; [exact Hsy|].
  intros i Hi. rewrite X_after_lookup by exact Hi.
  destruct (Nat.ltb_spec i (Z.to_nat n)); [|lia].
  unfold window. do 2 f_equal. lia.
Qed.

(** X2.  What the loop stores as target of example [i] is not the window after
    the one of [X[i]], but the window after that: iteration [i + 1] writes
    [y[i]] from [beat_start + time_step], with [beat_start] already
    advanced.  So [y[i]] is [beat_roll[(i+2)*time_step : (i+3)*time_step]],
    which is [X[i + 2]] when that example exists. *)
Lemma target_window_two_ahead (midi : Midi) (beats n : Z) :
  window_count rnd midi beats = Ok n ->
  1 <= n ->
  well_shaped midi beats n ->
  exists net,
    Network_init rnd midi beats = Ok net /\
    forall i : nat,
      (i + 1 < Z.to_nat (N net))%nat ->
      y net !! i
      = Some (py_slice (beat_roll midi)
                ((i + 2) * Z.to_nat (time_step net))
                ((i + 3) * Z.to_nat (time_step net))) /\
      ((i + 2 < Z.to_nat (N net))%nat -> y net !! i = X net !! (i + 2)%nat).
Proof.
  intros Hn Hn1 (Ht & Hr & Hrows & Hlong).
  pose proof (windows_closed_form (beat_roll midi) n (beats * res midi)
                (note_range midi)) as HXy.
  specialize (HXy ltac:(lia) Ht ltac:(lia) Hrows Hlong).
  destruct (Network_init_Ok midi beats n _ Hn HXy) as [net Hnet].
  exists net. split; [exact Hnet|].
  destruct (Network_init_inv _ _ _ Hnet) as (n' & Xy & Hn' & HXy' & HN & Hts & _ & _ & HX & Hy).
  assert (n' = n) as -> by congruence.
  rewrite HXy in HXy'. injection HXy' as <-. simpl in HX, Hy.
  rewrite HN, Hts, HX, Hy. intros i Hi.
  rewrite y_after_lookup by lia.
  destruct (Nat.ltb_spec (S i) (Z.to_nat n)); [|lia]. split.
  - unfold window. do 2 f_equal; lia.
  - intros Hi2. rewrite X_after_lookup by lia.
    destruct (Nat.ltb_spec (i + 2) (Z.to_nat n)); [reflexivity|lia].
Qed.

(** C4.  After any successful construction with [N >= 1], the last target
    row [y[N - 1]] still holds the zeros [np.zeros] put there. *)
Theorem last_target_zero (midi : Midi) (beats : Z) (net : Network) :
  Network_init rnd midi beats = Ok net ->
  1 <= N net ->
  y net !! Z.to_nat (N net - 1)
  = Some (zeros (Z.to_nat (time_step net)) (Z.to_nat (note_range midi))).
Proof.
  intros Hnet HN1.
  destruct (Network_init_inv _ _ _ Hnet) as (n & Xy & _ & HXy & HN & Hts & _ & _ & _ & Hy).
  rewrite HN in *. rewrite Hts, Hy. clear Hnet HN Hts Hy.
  unfold windows in HXy.
  apply bind_Ok in HXy as (X0 & HX0 & H). apply bind_Ok in H as (y0 & Hy0 & H).
  apply np_zeros_inv in Hy0 as (_ & _ & _ & ->).
  replace (Z.to_nat (n - 1)) with (Z.to_nat n - 1)%nat by lia.
  rewrite (window_loop_last_target _ (Z.to_nat n) _ _ 0%nat (Z.to_nat n) _ _
             ltac:(lia) H).
  simpl. apply lookup_replicate_2. lia.
Qed.

(** A negative number of examples is refused by [np.zeros]. *)
Lemma short_performance_fails (midi : Midi) (beats n : Z) :
  window_count rnd midi beats = Ok n -> n < 0 ->
  Network_init rnd midi beats = Raise ValueError.
Proof.
  intros Hn Hneg. unfold Network_init. rewrite Hn. simpl.
  unfold windows. rewrite np_zeros_negative by lia. reflexivity.
Qed.

(** C3, as the code has it.  There is no check of the number of examples:
    when [N < 0] construction fails with the [ValueError] of the first
    [np.zeros], before a tensor exists; when [N = 0] (and the window and
    the note range are positive) it succeeds, and [X] and [y] are tensors
    of length zero. *)
Theorem short_performance (midi : Midi) (beats n : Z) :
  window_count rnd midi beats = Ok n ->
  (n < 0 ->
   np_zeros n (beats * res midi) (note_range midi) = Raise ValueError /\
   Network_init rnd midi beats = Raise ValueError) /\
  (n = 0 -> 0 < beats * res midi -> 0 < note_range midi ->
   exists net,
     Network_init rnd midi beats = Ok net /\ N net = 0 /\
     X net = [] /\ y net = []).
Proof.
  intros Hn. split.
  - intros Hneg. split; [apply np_zeros_negative; lia|].
    exact (short_performance_fails midi beats n Hn Hneg).
  - intros -> Ht Hr.
    assert (HXy : windows (beat_roll midi) 0 (beats * res midi) (note_range midi)
                  = Ok ([], [])).
    { unfold windows. rewrite np_zeros_Ok by lia. reflexivity. }
    destruct (Network_init_Ok midi beats 0 _ Hn HXy) as [net Hnet].
    exists net. split; [exact Hnet|].
    destruct (Network_init_inv _ _ _ Hnet) as (n' & Xy & Hn' & HXy' & HN & _ & _ & _ & HX & Hy).
    assert (n' = 0) as -> by congruence.
    rewrite HXy in HXy'. injection HXy' as <-. auto.
Qed.

End Constructor.

(** ** The number of examples *)

Section WindowCount.

Context `{K : Keras}.
Variable rnd : Q -> Q.

Lemma int_truediv_inv (a b : Z) (q : Q) :
  int_truediv rnd a b = Ok q -> b <> 0 /\ q = rnd (inject_Z a / inject_Z b).
Proof.
  unfold int_truediv. destruct (Z.eqb_spec b 0); [discriminate|].
  intros [= <-]. auto.
Qed.

Lemma float_truediv_Ok (x : Q) (b : Z) :
  ~ (rnd (inject_Z b) == 0)%Q ->
  float_truediv rnd x b = Ok (rnd (x / rnd (inject_Z b))).
Proof.
  intros Hb. unfold float_truediv.
  destruct (Qeq_bool (rnd (inject_Z b)) 0) eqn:E; [|reflexivity].
  apply Qeq_bool_iff in E. contradiction.
Qed.

Lemma float_truediv_inv (x q : Q) (b : Z) :
  float_truediv rnd x b = Ok q ->
  ~ (rnd (inject_Z b) == 0)%Q /\ q = rnd (x / rnd (inject_Z b)).
Proof.
  unfold float_truediv. destruct (Qeq_bool (rnd (inject_Z b)) 0) eqn:E; [discriminate|].
  intros [= <-]. split; [|reflexivity].
  intros Hb. apply Qeq_bool_iff in Hb. congruence.
Qed.

Lemma inject_Z_nonzero (z : Z) : z <> 0 -> ~ (inject_Z z == 0)%Q.
Proof.
  intros Hz H. apply Hz. unfold Qeq, inject_Z in H. simpl in H. lia.
Qed.

Hypothesis rounding : rounding_to_nearest rnd.

(** The float of a positive [int] is at least one. *)
Lemma float_of_positive (z : Z) : 0 < z -> (1 <= rnd (inject_Z z))%Q.
Proof.
  intros Hz.
  rewrite <- (rnd_integer rnd rounding 1) by (vm_compute; discriminate).
  apply (rnd_monotone rnd rounding). rewrite <- Zle_Qle. lia.
Qed.

(** For a performance of at least two windows the number of examples is
    [floor(total_beats / beats_in_window) - 1], and it is at least one,
    whatever the rounding to nearest. *)
Lemma window_count_two_windows (midi : Midi) (beats : Z) (total_beats : Q) :
  total_beats_of rnd midi = Ok total_beats ->
  0 < beats ->
  (inject_Z (2 * beats) <= total_beats)%Q ->
  total_beats = rnd (inject_Z (total_ticks midi) / inject_Z (tpb midi)) /\
  exists n,
    window_count rnd midi beats = Ok n /\
    n = Qfloor (rnd (total_beats / rnd (inject_Z beats))) - 1 /\
    1 <= n /\
    forall net, Network_init rnd midi beats = Ok net -> N net = n.
Proof.
  intros Htb Hbeats Hlong.
  pose proof (int_truediv_inv _ _ _ Htb) as [_ Heq]. split; [exact Heq|].
  pose proof (float_of_positive beats Hbeats) as Hdiv.
  assert (Hcount : window_count rnd midi beats
                   = Ok (Qfloor (rnd (total_beats / rnd (inject_Z beats))) - 1)).
  { unfold window_count. rewrite Htb. simpl.
    rewrite float_truediv_Ok; [reflexivity|].
    intros H0. rewrite H0 in Hdiv. Lqa.lra. }
  eexists. split; [exact Hcount|]. split; [reflexivity|]. split.
  - (* [total_beats] is a float, so the float of [2 * beats] is below it *)
    assert (Hfloat : (2 * rnd (inject_Z beats) <= total_beats)%Q).
    { rewrite <- (rnd_double rnd rounding beats Hbeats).
      apply (rnd_monotone rnd rounding) in Hlong.
      rewrite Heq in Hlong |- *.
      rewrite (rnd_idempotent rnd rounding) in Hlong. exact Hlong. }
    assert (H2 : (2 <= total_beats / rnd (inject_Z beats))%Q).
    { apply Qle_shift_div_l; [|exact Hfloat].
      eapply Qlt_le_trans; [|exact Hdiv]. reflexivity. }
    apply (rnd_monotone rnd rounding) in H2.
    rewrite (rnd_integer rnd rounding 2) in H2 by (vm_compute; discriminate).
    apply Qfloor_resp_le in H2. change (Qfloor (inject_Z 2)) with 2 in H2. lia.
  - intros net Hnet.
    destruct (Network_init_inv rnd _ _ _ Hnet) as (n' & _ & Hn' & _ & HN & _).
    congruence.
Qed.

End WindowCount.

Section WindowCountBinary64.

Context `{K : Keras}.

(** C2.  In the float arithmetic of CPython, for a performance of at least
    two windows, [total_beats >= 2 * beats_in_window], the constructor
    computes [N = floor(total_beats / beats_in_window) - 1] from
    [total_beats = total_ticks / tpb], and [N >= 1]. *)
Theorem window_count_formula (midi : Midi) (beats : Z) (total_beats : Q) :
  total_beats_of binary64 midi = Ok total_beats ->
  0 < beats ->
  (inject_Z (2 * beats) <= total_beats)%Q ->
  total_beats = binary64 (inject_Z (total_ticks midi) / inject_Z (tpb midi)) /\
  exists n,
    window_count binary64 midi beats = Ok n /\
    n = Qfloor (binary64 (total_beats / binary64 (inject_Z beats))) - 1 /\
    1 <= n /\
    forall net, Network_init binary64 midi beats = Ok net -> N net = n.
Proof.
  exact (window_count_two_windows binary64 binary64_rounding midi beats total_beats).
Qed.

End WindowCountBinary64.

(** ** The declared graph *)

Section Softmax.

Local Open Scope R_scope.

Lemma Rsum_scale (s : R) (l : list R) :
  Rsum ((fun x => x / s) <$> l) = Rsum l / s.
Proof.
  induction l as [|x l IH].
  - simpl. unfold Rdiv. ring.
  - rewrite fmap_cons.
    change (x / s + Rsum ((fun x => x / s) <$> l) = (x + Rsum l) / s).
    rewrite IH. unfold Rdiv. ring.
Qed.

Lemma Rsum_exp_pos (l : list R) : l <> [] -> 0 < Rsum (exp <$> l).
Proof.
  intros Hl. destruct l as [|x l]; [contradiction|]. clear Hl.
  assert (Htail : 0 <= Rsum (exp <$> l)).
  { induction l as [|z l IH]; [simpl; lra|].
    rewrite fmap_cons. change (0 <= exp z + Rsum (exp <$> l)).
    pose proof (exp_pos z). lra. }
  rewrite fmap_cons. change (0 < exp x + Rsum (exp <$> l)).
  pose proof (exp_pos x). lra.
Qed.

(** The outputs of a softmax over the pitches of a timestep add up to one:
    it is a distribution over the pitches. *)
Lemma softmax_sum (logits : list R) : logits <> [] -> Rsum (softmax logits) = 1.
Proof.
  intros Hl. unfold softmax.
  replace ((fun x => exp x / Rsum (exp <$> logits)) <$> logits)
    with ((fun e => e / Rsum (exp <$> logits)) <$> (exp <$> logits))
    by (rewrite <- list_fmap_compose; reflexivity).
  rewrite Rsum_scale. pose proof (Rsum_exp_pos logits Hl). field. lra.
Qed.

Lemma softmax_nonneg (logits : list R) : Forall (fun p => 0 <= p) (softmax logits).
Proof.
  destruct (decide (logits = [])) as [->|Hl]; [constructor|].
  pose proof (Rsum_exp_pos logits Hl) as Hs. unfold softmax.
  apply Forall_fmap, Forall_forall. intros x _. simpl.
  pose proof (exp_pos x). apply Rlt_le, Rdiv_lt_0_compat; assumption.
Qed.

Lemma Rsum_nonneg (l : list R) : Forall (fun p => 0 <= p) l -> 0 <= Rsum l.
Proof. induction 1; simpl; lra. Qed.

Lemma Rsum_lookup_le (l : list R) (i : nat) (p : R) :
  Forall (fun p => 0 <= p) l -> l !! i = Some p -> p <= Rsum l.
Proof.
  intros Hl. revert i. induction Hl as [|x l Hx Hl IH]; intros [|i] Hi;
    try discriminate; simpl in *.
  - injection Hi as ->. pose proof (Rsum_nonneg l Hl). lra.
  - specialize (IH i Hi). lra.
Qed.

Lemma Rsum_two_le (l : list R) (i j : nat) (p q : R) :
  Forall (fun p => 0 <= p) l -> i <> j ->
  l !! i = Some p -> l !! j = Some q -> p + q <= Rsum l.
Proof.
  intros Hl. revert i j. induction Hl as [|x l Hx Hl IH]; intros [|i] [|j] Hij Hi Hj;
    try discriminate; try congruence; simpl in *.
  - injection Hi as ->. pose proof (Rsum_lookup_le l j q Hl Hj). lra.
  - injection Hj as ->. pose proof (Rsum_lookup_le l i p Hl Hi). lra.
  - assert (i <> j) by congruence. specialize (IH i j ltac:(assumption) Hi Hj). lra.
Qed.

(** Two pitches of one timestep share the probability mass. *)
Lemma softmax_exclusive (logits : list R) (i j : nat) (p q : R) :
  i <> j -> softmax logits !! i = Some p -> softmax logits !! j = Some q ->
  p + q <= 1.
Proof.
  intros Hij Hi Hj.
  assert (Hl : logits <> []).
  { intros ->. discriminate. }
  rewrite <- (softmax_sum logits Hl).
  eapply Rsum_two_le; eauto using softmax_nonneg.
Qed.

(** The logistic function, by contrast, treats every pitch on its own: two
    positive pre-activations both get a probability above one half. *)
Lemma sigmoid_high (x : R) : 0 < x -> 1 / 2 < sigmoid x.
Proof.
  intros Hx. unfold sigmoid.
  assert (Hlt : exp (- x) < 1).
  { rewrite <- exp_0. apply exp_increasing. lra. }
  pose proof (exp_pos (- x)) as Hpos.
  apply Rmult_lt_reg_r with (r := 2 * (1 + exp (- x))); [lra|].
  field_simplify; lra.
Qed.

Lemma sigmoid_jointly_high (a b : R) :
  0 < a -> 0 < b ->
  exists p q,
    keras_activation "sigmoid" [a; b] = Some [p; q] /\ 1 / 2 < p /\ 1 / 2 < q.
Proof.
  intros Ha Hb. exists (sigmoid a), (sigmoid b).
  split; [reflexivity|]. split; apply sigmoid_high; assumption.
Qed.

End Softmax.

Section Architecture.

Context `{K : Keras}.
Variable rnd : Q -> Q.

(** X3.  The emission layer the constructor declares is a [Dense] layer with
    [activation='softmax'], and it is the output of the trained model.  A
    softmax is a categorical distribution over the pitches of a timestep:
    its cells add up to one, so no two pitches can both have a probability
    above one half. *)
Lemma emission_is_softmax (midi : Midi) (beats : Z) (net : Network) :
  Network_init rnd midi beats = Ok net ->
  activation (dec_dense net) = "softmax" /\
  (exists x, model_outputs (training_model net) = [KDense (dec_dense net) x]) /\
  forall logits probs,
    keras_activation (activation (dec_dense net)) logits = Some probs ->
    probs = softmax logits /\
    (logits <> [] -> Rsum probs = 1%R) /\
    forall (i j : nat) (p q : R),
      i <> j -> probs !! i = Some p -> probs !! j = Some q -> (p + q <= 1)%R.
Proof.
  unfold Network_init. intros H.
  apply bind_Ok in H as (n & Hn & H). apply bind_Ok in H as (Xy & HXy & H).
  injection H as <-. simpl. split; [reflexivity|]. split; [eexists; reflexivity|].
  intros logits probs [= <-]. split; [reflexivity|]. split.
  - apply softmax_sum.
  - intros i j p q. apply softmax_exclusive.
Qed.

Lemma Network_init_hidden (midi : Midi) (beats : Z) (net : Network) :
  Network_init rnd midi beats = Ok net -> hidden net = 128.
Proof.
  unfold Network_init. intros H.
  apply bind_Ok in H as (n & Hn & H). apply bind_Ok in H as (Xy & HXy & H).
  injection H as <-. reflexivity.
Qed.

(** C9, as the code has it.  The state width is not an argument of the
    constructor: every construction sets [hidden] to 128, and the four
    recurrent layers of the encoder and the decoder have that width. *)
Theorem hidden_is_128 (midi : Midi) (beats : Z) (net : Network) :
  Network_init rnd midi beats = Ok net ->
  hidden net = 128 /\
  units (enc_lstm_1 net) = hidden net /\
  units (enc_lstm_2 net) = hidden net /\
  units (dec_lstm_1 net) = hidden net /\
  units (dec_lstm_2 net) = hidden net.
Proof.
  intros Hnet. split; [exact (Network_init_hidden midi beats net Hnet)|].
  unfold Network_init in Hnet.
  apply bind_Ok in Hnet as (n & Hn & H). apply bind_Ok in H as (Xy & HXy & H).
  injection H as <-. simpl. repeat split; reflexivity.
Qed.

End Architecture.

(** ** Training *)

Section Training.

Context `{K : Keras}.
Variable rnd : Q -> Q.

Lemma samples_same_input (Xs ys : Tensor3) :
  length Xs = length ys ->
  samples [Xs; Xs] ys = zip_with teacher_forced Xs ys.
Proof.
  intros Hlen. apply list_eq. intros i. unfold samples.
  rewrite list_lookup_imap, lookup_zip_with.
  destruct (ys !! i) as [target|] eqn:Hy; simpl.
  - destruct (lookup_lt_is_Some_2 Xs i) as [x Hx].
    { rewrite Hlen. eapply lookup_lt_Some, Hy. }
    rewrite Hx. reflexivity.
  - destruct (Xs !! i); reflexivity.
Qed.

Lemma fit_epochs_graph (k : nat) (m : KModel Weights) (batch_size : Z)
    (training : list Sample) :
  let m' := (fit_epochs k m batch_size training).1 in
  model_inputs m' = model_inputs m /\ model_outputs m' = model_outputs m /\
  compiled m' = compiled m.
Proof.
  revert m. induction k as [|k IH]; intros m; simpl; [auto|].
  destruct (run_epoch m batch_size training) as [w|e]; simpl; [|auto].
  destruct (IH (set_weights m w)) as (Hi & Ho & Hc). auto.
Qed.

Lemma keras_fit_graph (m : KModel Weights) (xs : list Tensor3) (ys : Tensor3)
    (batch_size epochs : Z) (split : Q) :
  let m' := (keras_fit rnd m xs ys batch_size epochs split).1 in
  model_inputs m' = model_inputs m /\ model_outputs m' = model_outputs m /\
  compiled m' = compiled m.
Proof.
  unfold keras_fit. destruct (compiled m) eqn:Hc; simpl; [|auto].
  destruct (forallb _ xs); simpl; [|auto].
  rewrite <- Hc. apply fit_epochs_graph.
Qed.

(** A split strictly between zero and one holds the last examples back. *)
Lemma training_examples_split (split : Q) (examples : list Sample) :
  (0 < split)%Q -> (split < 1)%Q ->
  training_examples rnd split examples
  = take (split_at rnd (length examples) split) examples.
Proof.
  intros H0 H1. unfold training_examples.
  destruct (Qle_bool split 0) eqn:E0.
  { apply Qle_bool_iff in E0. Lqa.lra. }
  destruct (Qle_bool 1 split) eqn:E1.
  { apply Qle_bool_iff in E1. Lqa.lra. }
  reflexivity.
Qed.

Lemma keras_fit_compiled (m : KModel Weights) (opt loss : string) (Xs ys : Tensor3)
    (batch_size epochs : Z) (split : Q) :
  length Xs = length ys ->
  keras_fit rnd (keras_compile m opt loss) [Xs; Xs] ys batch_size epochs split
  = fit_epochs (Z.to_nat epochs) (keras_compile m opt loss) batch_size
      (training_examples rnd split (zip_with teacher_forced Xs ys)).
Proof.
  intros Hlen. unfold keras_fit. simpl.
  rewrite Hlen, Nat.eqb_refl. simpl.
  rewrite samples_same_input by exact Hlen. reflexivity.
Qed.

(** What [train] does, for a float [0.2] between zero and one: the
    compiled model is fitted, one example at a time, on the examples
    before the split. *)
Lemma train_fits (net : Network) (epochs : Z) :
  (0 < rnd (2 # 10))%Q -> (rnd (2 # 10) < 1)%Q ->
  length (X net) = length (y net) ->
  let training :=
    take (split_at rnd (length (y net)) (rnd (2 # 10)))
      (zip_with teacher_forced (X net) (y net)) in
  let fitted :=
    fit_epochs (Z.to_nat epochs)
      (keras_compile (training_model net) "rmsprop" "binary_crossentropy")
      1 training in
  train rnd net epochs = (set_training_model net fitted.1, fitted.2).
Proof.
  intros H0 H1 Hlen. unfold train.
  rewrite keras_fit_compiled by exact Hlen.
  rewrite training_examples_split by assumption.
  rewrite length_zip_with, Hlen, Nat.min_id. reflexivity.
Qed.

(** Tensors built by the constructor have one target row per input row. *)
Lemma constructed_lengths (midi : Midi) (beats : Z) (net : Network) :
  Network_init rnd midi beats = Ok net -> length (X net) = length (y net).
Proof.
  intros Hnet.
  destruct (Network_init_inv rnd _ _ _ Hnet) as (n & Xy & _ & HXy & _ & _ & _ & _ & -> & ->).
  destruct (windows_shape _ _ _ _ _ HXy) as [[-> _] [-> _]]. reflexivity.
Qed.

(** C10.  Whether it returns or raises, [train] leaves every attribute but
    [training_model] as it was, the window tensors, the counts and the
    piano roll among them; of the model it keeps the graph. *)
Theorem train_frame (net : Network) (epochs : Z) :
  let net' := (train rnd net epochs).1 in
  X net' = X net /\ y net' = y net /\
  N net' = N net /\ time_step net' = time_step net /\
  midi_in net' = midi_in net /\ encoder_in_data net' = encoder_in_data net /\
  beats_in_window net' = beats_in_window net /\ hidden net' = hidden net /\
  model_inputs (training_model net') = model_inputs (training_model net) /\
  model_outputs (training_model net') = model_outputs (training_model net).
Proof.
  unfold train. simpl.
  repeat (split; [reflexivity|]).
  destruct (keras_fit_graph
              (keras_compile (training_model net) "rmsprop" "binary_crossentropy")
              [X net; X net] (y net) 1 epochs (rnd (2 # 10))) as (Hi & Ho & _).
  split; [exact Hi|exact Ho].
Qed.

End Training.

Section TrainingBinary64.

Context `{K : Keras}.

Lemma validation_split_in_range :
  (0 < binary64 (2 # 10))%Q /\ (binary64 (2 # 10) < 1)%Q.
Proof. split; vm_compute; reflexivity. Qed.

(** C6.  [train] compiles the joined model with the binary cross-entropy
    loss and fits it on the examples [([X[i], X[i]], y[i])]: the input
    window is both encoder input and decoder input, the target is [y[i]].
    The batch size is 1, every epoch updates the weights from the examples
    before [int(N * (1. - 0.2))] only, so tensors that differ in the
    validation examples alone train the same model; the default is 50
    epochs. *)
Theorem train_contract (net : Network) (epochs : Z) :
  length (X net) = length (y net) ->
  let split := split_at binary64 (length (y net)) (binary64 (2 # 10)) in
  let training := take split (zip_with teacher_forced (X net) (y net)) in
  let fitted :=
    fit_epochs (Z.to_nat epochs)
      (keras_compile (training_model net) "rmsprop" "binary_crossentropy")
      1 training in
  train binary64 net epochs = (set_training_model net fitted.1, fitted.2) /\
  train_default binary64 net = train binary64 net 50 /\
  compiled (training_model (train binary64 net epochs).1)
  = Some ("rmsprop", "binary_crossentropy")%string /\
  forall net' : Network,
    training_model net' = training_model net ->
    length (X net') = length (y net') ->
    length (y net') = length (y net) ->
    take split (X net') = take split (X net) ->
    take split (y net') = take split (y net) ->
    training_model (train binary64 net' epochs).1
    = training_model (train binary64 net epochs).1 /\
    (train binary64 net' epochs).2 = (train binary64 net epochs).2.
Proof.
  intros Hlen split training fitted.
  destruct validation_split_in_range as [H0 H1].
  pose proof (train_fits binary64 net epochs H0 H1 Hlen) as Htrain.
  cbv zeta in Htrain. fold split in Htrain. fold training in Htrain.
  fold fitted in Htrain.
  split; [exact Htrain|]. split; [reflexivity|]. split.
  - rewrite Htrain. simpl.
    apply (fit_epochs_graph (Z.to_nat epochs)
             (keras_compile (training_model net) "rmsprop" "binary_crossentropy")).
  - intros net' Hm Hlen' Hy HX Hyy.
    rewrite Htrain, (train_fits binary64 net' epochs H0 H1 Hlen'). simpl.
    subst fitted training split.
    rewrite Hm, Hy, !zip_with_take, HX, Hyy. split; reflexivity.
Qed.

End TrainingBinary64.


(** ** Persistence *)

Section Persistence.

Context `{K : Keras}.

(** What Keras promises of [save] and [load_model]: a written model reads
    back as it was. *)
Hypothesis load_of_save : forall m : KModel Weights, deserialize (serialize m) = Some m.

(** C8.  A model saved under a name and loaded from that name, into any
    [Network], predicts on every input what the saved one predicted. *)
Theorem save_load_roundtrip (net other : Network) (filename : string)
    (fs : gmap string Blob) (inputs : list Tensor3) :
  exists loaded,
    load_training other filename (save net filename fs) = Ok loaded /\
    training_model loaded = training_model net /\
    predict (training_model loaded) inputs = predict (training_model net) inputs.
Proof.
  exists (set_training_model other (training_model net)).
  unfold load_training, save. rewrite lookup_insert_eq, load_of_save.
  repeat split; reflexivity.
Qed.

End Persistence.

(** ** Exact arithmetic *)

Section ExactArithmetic.

(** When no quotient is rounded, a roll whose length agrees with the tick
    count holds the [N + 1] windows the constructor reads. *)
Lemma consistent_roll_holds_windows (midi : Midi) (beats n : Z) :
  tick_consistent midi -> 0 < beats -> 0 < res midi ->
  window_count exact midi beats = Ok n ->
  (n + 1) * (beats * res midi) <= Z.of_nat (length (beat_roll midi)).
Proof.
  intros [Htpb Hticks] Hbeats Hres Hn.
  unfold window_count in Hn.
  apply bind_Ok in Hn as (tb & Htb & Hn). apply bind_Ok in Hn as (q & Hq & [= <-]).
  apply int_truediv_inv in Htb as [_ ->]. apply float_truediv_inv in Hq as [_ ->].
  unfold exact.
  set (q := (inject_Z (total_ticks midi) / inject_Z (tpb midi) / inject_Z beats)%Q).
  assert (Hfloor : Qfloor q * (beats * tpb midi) <= total_ticks midi).
  { rewrite Zle_Qle, !inject_Z_mult.
    assert (Hpos : (0 < inject_Z beats * inject_Z (tpb midi))%Q).
    { rewrite <- inject_Z_mult. change 0%Q with (inject_Z 0).
      rewrite <- Zlt_Qlt. lia. }
    eapply Qle_trans.
    - apply Qmult_le_compat_r; [apply (Qfloor_le q)|apply Qlt_le_weak, Hpos].
    - unfold q. apply Qle_lteq. right. field. split.
      + apply inject_Z_nonzero. lia.
      + apply inject_Z_nonzero. lia. }
  nia.
Qed.

End ExactArithmetic.

(** * Further properties of the code *)

(** ** What the constructor raises *)

Section ConstructorErrors.

Context `{K : Keras}.

Lemma bind_Raise {A B : Type} (m : result A) (f : A -> result B) (e : PyError) :
  m ≫= f = Raise e -> m = Raise e \/ exists a, m = Ok a /\ f a = Raise e.
Proof.
  destruct m as [a|e']; simpl; intros H; [right; eauto | left; congruence].
Qed.

(** The float of an [int] is zero only for zero. *)
Lemma binary64_int_zero (z : Z) : (binary64 (inject_Z z) == 0)%Q -> z = 0.
Proof.
  intros H. destruct (Z.lt_trichotomy z 0) as [Hneg|[Hz|Hpos]]; [|exact Hz|].
  - assert (Hle : (binary64 (inject_Z z) <= binary64 (inject_Z (-1)))%Q).
    { apply binary64_monotone. rewrite <- Zle_Qle. lia. }
    pose proof (binary64_integer (-1) ltac:(vm_compute; discriminate)) as H1.
    rewrite H, H1 in Hle. apply Qle_bool_iff in Hle. discriminate Hle.
  - assert (Hle : (binary64 (inject_Z 1) <= binary64 (inject_Z z))%Q).
    { apply binary64_monotone. rewrite <- Zle_Qle. lia. }
    pose proof (binary64_integer 1 ltac:(vm_compute; discriminate)) as H1.
    rewrite H, H1 in Hle. apply Qle_bool_iff in Hle. discriminate Hle.
Qed.

Lemma broadcast_block_raises (t r : nat) (src : Matrix) (e : PyError) :
  broadcast_block t r src = Raise e -> e = ValueError.
Proof.
  unfold broadcast_block. destruct src as [|row src'].
  - destruct (Nat.eqb r 0); [discriminate|]. intros [= <-]. reflexivity.
  - destruct (rectangular _ _); [|intros [= <-]; reflexivity].
    assert (Haxis : forall (A : Type) (n : nat) (l : list A) (e' : PyError),
              broadcast_axis n l = Raise e' -> e' = ValueError).
    { intros A n l e'. unfold broadcast_axis.
      destruct (Nat.eqb _ _); [discriminate|].
      destruct l as [|x [|? ?]]; try discriminate; intros [= <-]; reflexivity. }
    assert (Hmap : forall (l : Matrix) (e' : PyError),
              map_result (broadcast_axis r) l = Raise e' -> e' = ValueError).
    { induction l as [|a l IH]; intros e' Hl; simpl in Hl; [discriminate|].
      apply bind_Raise in Hl as [Hl|(b & _ & Hl)]; [eapply Haxis, Hl|].
      apply bind_Raise in Hl as [Hl|(bs & _ & Hl)]; [apply IH, Hl|discriminate]. }
    intros H. apply bind_Raise in H as [H|(rows & _ & H)];
      [eapply Hmap, H|eapply Haxis, H].
Qed.

(** A store into a row that exists raises nothing but [ValueError]. *)
Lemma setitem_raises (dst : Tensor3) (i t r : nat) (src : Matrix) (e : PyError) :
  (i < length dst)%nat -> setitem dst i t r src = Raise e -> e = ValueError.
Proof.
  intros Hi. unfold setitem. destruct (Nat.ltb_spec i (length dst)) as [_|Hge]; [|lia].
  intros H. apply bind_Raise in H as [H|(b & _ & H)]; [|discriminate].
  eapply broadcast_block_raises, H.
Qed.

Lemma setitem_length (dst dst' : Tensor3) (i t r : nat) (src : Matrix) :
  setitem dst i t r src = Ok dst' -> length dst' = length dst.
Proof.
  intros H. apply setitem_inv in H as (b & _ & ->). apply length_insert.
Qed.

Lemma window_step_raises (roll : Matrix) (n t r : nat) (Xy : Tensor3 * Tensor3)
    (i : nat) (e : PyError) :
  length Xy.1 = n -> length Xy.2 = n -> (i < n)%nat ->
  window_step roll t r Xy i = Raise e -> e = ValueError.
Proof.
  intros HX Hy Hi H. unfold window_step in H.
  apply bind_Raise in H as [H|(X' & _ & H)].
  - eapply setitem_raises; [|exact H]. lia.
  - destruct (Nat.ltb_spec 0 i); [|discriminate].
    apply bind_Raise in H as [H|(y' & _ & H)]; [|discriminate].
    eapply setitem_raises; [|exact H]. lia.
Qed.

Lemma window_step_lengths (roll : Matrix) (t r : nat) (Xy Xy' : Tensor3 * Tensor3)
    (i : nat) :
  window_step roll t r Xy i = Ok Xy' ->
  length Xy'.1 = length Xy.1 /\ length Xy'.2 = length Xy.2.
Proof.
  intros H. unfold window_step in H.
  apply bind_Ok in H as (X' & HX' & H). apply setitem_length in HX'.
  destruct (Nat.ltb 0 i).
  - apply bind_Ok in H as (y' & Hy' & [= <-]). apply setitem_length in Hy'. auto.
  - injection H as <-. auto.
Qed.

Lemma window_loop_raises (roll : Matrix) (n t r : nat) (a k : nat)
    (Xy : Tensor3 * Tensor3) (e : PyError) :
  length Xy.1 = n -> length Xy.2 = n -> (a + k <= n)%nat ->
  for_each (window_step roll t r) Xy (seq a k) = Raise e -> e = ValueError.
Proof.
  revert a Xy. induction k as [|k IH]; simpl; intros a Xy HX Hy Hk H; [discriminate|].
  apply bind_Raise in H as [H|(Xy1 & Hstep & H)].
  - eapply (window_step_raises roll n); [exact HX|exact Hy| |exact H]. lia.
  - destruct (window_step_lengths _ _ _ _ _ _ Hstep) as [HX1 Hy1].
    apply (IH (S a) Xy1); [congruence|congruence|lia|exact H].
Qed.

Lemma windows_raises (roll : Matrix) (n t r : Z) (e : PyError) :
  windows roll n t r = Raise e -> e = ValueError.
Proof.
  unfold windows. intros H.
  apply bind_Raise in H as [H|(X0 & HX0 & H)].
  { unfold np_zeros in H. destruct (_ || _); [|discriminate]. congruence. }
  apply bind_Raise in H as [H|(y0 & Hy0 & H)].
  { unfold np_zeros in H. destruct (_ || _); [|discriminate]. congruence. }
  apply np_zeros_inv in HX0 as (_ & _ & _ & ->).
  apply np_zeros_inv in Hy0 as (_ & _ & _ & ->).
  eapply (window_loop_raises roll (Z.to_nat n)); [| | |exact H];
    simpl; rewrite ?length_replicate; lia.
Qed.

Lemma window_count_raises (midi : Midi) (beats : Z) (e : PyError) :
  window_count binary64 midi beats = Raise e ->
  e = ZeroDivisionError /\ (tpb midi = 0 \/ beats = 0).
Proof.
  unfold window_count, total_beats_of. intros H.
  apply bind_Raise in H as [H|(tb & _ & H)].
  - unfold int_truediv in H. destruct (Z.eqb_spec (tpb midi) 0); [|discriminate].
    injection H as <-. auto.
  - apply bind_Raise in H as [H|(q & _ & H)]; [|discriminate].
    unfold float_truediv in H.
    destruct (Qeq_bool (binary64 (inject_Z beats)) 0) eqn:E; [|discriminate].
    injection H as <-. apply Qeq_bool_iff, binary64_int_zero in E. auto.
Qed.

(** X4.  For a tick count and a window length in the range of a float,
    the constructor raises nothing but [ZeroDivisionError] and
    [ValueError]: no store of the loop has an index out of range, and a
    slice never raises. *)
Theorem construction_raises (midi : Midi) (beats : Z) (e : PyError) :
  Z.abs (total_ticks midi) < 2 ^ 1023 -> Z.abs beats < 2 ^ 1023 ->
  Network_init binary64 midi beats = Raise e ->
  e = ZeroDivisionError \/ e = ValueError.
Proof.
  intros _ _. unfold Network_init. intros H.
  apply bind_Raise in H as [H|(n & _ & H)].
  - left. apply (window_count_raises midi beats e H).
  - apply bind_Raise in H as [H|(Xy & _ & H)]; [|discriminate].
    right. eapply windows_raises, H.
Qed.

(** X5.  For a tick count and a window length in the range of a float,
    construction raises [ZeroDivisionError] exactly when [tpb] or
    [beats_in_window] is zero, whatever the roll and the other fields. *)
Theorem zero_division_iff (midi : Midi) (beats : Z) :
  Z.abs (total_ticks midi) < 2 ^ 1023 -> Z.abs beats < 2 ^ 1023 ->
  (Network_init binary64 midi beats = Raise ZeroDivisionError <->
   tpb midi = 0 \/ beats = 0).
Proof.
  intros _ _. split.
  - unfold Network_init. intros H.
    apply bind_Raise in H as [H|(n & _ & H)].
    + apply (window_count_raises midi beats _ H).
    + apply bind_Raise in H as [H|(Xy & _ & H)]; [|discriminate].
      apply windows_raises in H. discriminate H.
  - intros Hz. unfold Network_init, window_count, total_beats_of, int_truediv.
    destruct (Z.eqb_spec (tpb midi) 0) as [_|Htpb]; [reflexivity|].
    destruct Hz as [Hz| ->]; [contradiction|]. simpl.
    unfold float_truediv.
    replace (Qeq_bool (binary64 (inject_Z 0)) 0) with true by (vm_compute; reflexivity).
    reflexivity.
Qed.

Variable rnd : Q -> Q.

(** X6.  A negative window length or note range is refused by the first
    [np.zeros], whatever the number of examples. *)
Theorem negative_dimension (midi : Midi) (beats n : Z) :
  window_count rnd midi beats = Ok n ->
  beats * res midi < 0 \/ note_range midi < 0 ->
  Network_init rnd midi beats = Raise ValueError.
Proof.
  intros Hn Hneg. unfold Network_init. rewrite Hn. simpl.
  unfold windows. rewrite np_zeros_negative by lia. reflexivity.
Qed.

Lemma for_each_raise_first {A S : Type} (body : S -> A -> result S) (s : S)
    (a : A) (l : list A) (e : PyError) :
  body s a = Raise e -> for_each body s (a :: l) = Raise e.
Proof. intros H. simpl. rewrite H. reflexivity. Qed.

(** X7.  A roll whose rows have another width than [note_range] (and more
    than one cell, or none) is refused by the first store into [X]. *)
Theorem width_mismatch (midi : Midi) (beats n : Z) (c : nat) :
  window_count rnd midi beats = Ok n ->
  1 <= n -> 0 < beats * res midi -> 0 <= note_range midi ->
  beat_roll midi <> [] ->
  Forall (fun row => length row = c) (beat_roll midi) ->
  c <> Z.to_nat (note_range midi) -> c <> 1%nat ->
  Network_init rnd midi beats = Raise ValueError.
Proof.
  intros Hn Hn1 Ht Hr Hroll Hrows Hc Hc1.
  unfold Network_init. rewrite Hn. simpl.
  unfold windows. rewrite np_zeros_Ok by lia. simpl.
  destruct (Z.to_nat n) as [|n'] eqn:En; [lia|]. simpl seq.
  rewrite (for_each_raise_first _ _ _ _ ValueError); [reflexivity|].
  assert (Hblock : broadcast_block (Z.to_nat (beats * res midi))
                     (Z.to_nat (note_range midi))
                     (py_slice (beat_roll midi) 0 (Z.to_nat (beats * res midi)))
                   = Raise ValueError).
  { destruct (beat_roll midi) as [|row roll'] eqn:Eroll; [contradiction|].
    destruct (Z.to_nat (beats * res midi)) as [|t'] eqn:Et; [lia|].
    change (py_slice (row :: roll') 0 (S t')) with (row :: take t' roll').
    assert (Hrow : length row = c) by (inversion Hrows; assumption).
    assert (Hrect : rectangular (length row) (row :: take t' roll') = true).
    { apply rectangular_Forall. rewrite Hrow. constructor; [exact Hrow|].
      apply Forall_take. inversion Hrows; assumption. }
    unfold broadcast_block. rewrite Hrect.
    assert (Haxis : broadcast_axis (Z.to_nat (note_range midi)) row = Raise ValueError).
    { unfold broadcast_axis. rewrite Hrow.
      destruct (Nat.eqb_spec c (Z.to_nat (note_range midi))); [contradiction|].
      destruct row as [|x [|x' row']]; simpl in Hrow; try reflexivity. lia. }
    cbn [map_result]. rewrite Haxis. reflexivity. }
  unfold window_step, setitem. cbn [fst snd length Nat.ltb Nat.leb Nat.mul Nat.add].
  rewrite Hblock. reflexivity.
Qed.

Lemma for_each_step {A S : Type} (body : S -> A -> result S) (l1 l2 : list A)
    (a : A) (s s' : S) :
  for_each body s (l1 ++ a :: l2) = Ok s' ->
  exists s1 s2, body s1 a = Ok s2.
Proof.
  revert s. induction l1 as [|b l1 IH]; simpl; intros s H.
  - apply bind_Ok in H as (s2 & Hs2 & _). eauto.
  - apply bind_Ok in H as (s1 & _ & H). eauto.
Qed.

Lemma map_result_length {A B : Type} (f : A -> result B) (l : list A) (l' : list B) :
  map_result f l = Ok l' -> length l' = length l.
Proof.
  revert l'. induction l as [|a l IH]; simpl; intros l' H.
  - injection H as <-. reflexivity.
  - apply bind_Ok in H as (b & _ & H). apply bind_Ok in H as (bs & Hbs & [= <-]).
    simpl. f_equal. apply IH, Hbs.
Qed.

(** What NumPy accepts for a block with cells has all its rows, or one. *)
Lemma broadcast_block_rows (t r : nat) (src block : Matrix) :
  (0 < r)%nat -> broadcast_block t r src = Ok block ->
  length src = t \/ length src = 1%nat.
Proof.
  intros Hr. unfold broadcast_block. destruct src as [|row src'].
  - destruct (Nat.eqb_spec r 0); [lia|discriminate].
  - destruct (rectangular _ _); [|discriminate].
    intros H. apply bind_Ok in H as (rows & Hrows & H).
    apply map_result_length in Hrows. rewrite <- Hrows.
    unfold broadcast_axis in H.
    destruct (Nat.eqb_spec (length rows) t); [auto|].
    destruct rows as [|x [|? ?]]; try discriminate. auto.
Qed.

(** X8.  A roll that is cut short is noticed: when construction succeeds
    with two examples or more, the roll holds all the [N + 1] windows, or
    it ends one row into the last one (and that row is repeated). *)
Theorem truncated_roll_detected (midi : Midi) (beats : Z) (net : Network) :
  Network_init rnd midi beats = Ok net ->
  2 <= N net -> 0 < note_range midi ->
  (N net + 1) * time_step net <= Z.of_nat (length (beat_roll midi)) \/
  Z.of_nat (length (beat_roll midi)) = N net * time_step net + 1.
Proof.
  intros Hnet HN Hr.
  destruct (Network_init_inv rnd _ _ _ Hnet) as (n & Xy & _ & HXy & HNn & -> & _).
  rewrite HNn in *. clear HNn.
  unfold windows in HXy.
  apply bind_Ok in HXy as (X0 & HX0 & H). apply bind_Ok in H as (y0 & _ & H).
  apply np_zeros_inv in HX0 as (_ & Ht & _ & _).
  set (t := Z.to_nat (beats * res midi)) in *.
  set (r := Z.to_nat (note_range midi)) in *.
  destruct (Z.to_nat n) as [|m] eqn:En; [lia|].
  rewrite seq_S in H. change (0 + m)%nat with m in H.
  apply for_each_step in H as (s1 & s2 & Hstep).
  unfold window_step in Hstep.
  apply bind_Ok in Hstep as (X' & _ & Hstep).
  destruct (Nat.ltb_spec 0 m) as [_|Hm]; [|lia].
  apply bind_Ok in Hstep as (y' & Hy' & _).
  apply setitem_inv in Hy' as (block & Hblock & _).
  apply broadcast_block_rows in Hblock; [|lia].
  unfold py_slice in Hblock. rewrite length_take, length_drop in Hblock.
  assert (Ht' : Z.of_nat t = beats * res midi) by lia.
  rewrite <- Ht'. nia.
Qed.

End ConstructorErrors.

(** ** How the windows cover the roll *)

Section Tiling.

Context `{K : Keras}.
Variable rnd : Q -> Q.

(** Consecutive windows, laid end to end, are a stretch of the roll. *)
Lemma windows_concat (roll : Matrix) (t a m : nat) :
  concat ((fun i => window roll t (i + a)) <$> seq 0 m)
  = take (m * t) (drop (a * t) roll).
Proof.
  induction m as [|m IH]; [reflexivity|].
  rewrite seq_S, fmap_app, concat_app, IH. simpl.
  rewrite app_nil_r. unfold window, py_slice.
  replace ((m + a) * t + t - (m + a) * t)%nat with t by lia.
  replace (drop ((m + a) * t) roll) with (drop (m * t) (drop (a * t) roll))
    by (rewrite drop_drop; f_equal; lia).
  rewrite take_take_drop. f_equal. lia.
Qed.

Lemma X_after_all (roll : Matrix) (n t r : nat) :
  X_after roll n t r n = (fun i => window roll t (i + 0)) <$> seq 0 n.
Proof.
  unfold X_after. apply list_fmap_ext. intros i x Hx.
  apply lookup_seq in Hx as [-> Hi]. simpl.
  destruct (Nat.ltb_spec i n); [|lia]. f_equal. lia.
Qed.

Lemma y_after_all (roll : Matrix) (n t r : nat) :
  take (n - 1) (y_after roll n t r n)
  = (fun i => window roll t (i + 2)) <$> seq 0 (n - 1).
Proof.
  unfold y_after. rewrite <- fmap_take, take_seq.
  rewrite Nat.min_l by lia.
  apply list_fmap_ext. intros i x Hx.
  apply lookup_seq in Hx as [-> Hi]. simpl.
  destruct (Nat.ltb_spec (S i) n); [reflexivity|lia].
Qed.

(** X9.  The input windows tile the roll: laid end to end, [X] is the first
    [N * time_step] slices of the roll, in order, without gap or overlap;
    the targets before the last one are the slices from the third window
    to the end of window [N]. *)
Theorem windows_tile_roll (midi : Midi) (beats n : Z) :
  window_count rnd midi beats = Ok n ->
  1 <= n ->
  well_shaped midi beats n ->
  exists net,
    Network_init rnd midi beats = Ok net /\
    concat (X net)
    = take (Z.to_nat (N net * time_step net)) (beat_roll midi) /\
    concat (take (Z.to_nat (N net - 1)) (y net))
    = py_slice (beat_roll midi)
        (Z.to_nat (2 * time_step net))
        (Z.to_nat ((N net + 1) * time_step net)).
Proof.
  intros Hn Hn1 (Ht & Hr & Hrows & Hlong).
  pose proof (windows_closed_form (beat_roll midi) n (beats * res midi)
                (note_range midi)) as HXy.
  specialize (HXy ltac:(lia) Ht ltac:(lia) Hrows Hlong).
  destruct (Network_init_Ok rnd midi beats n _ Hn HXy) as [net Hnet].
  exists net. split; [exact Hnet|].
  destruct (Network_init_inv rnd _ _ _ Hnet)
    as (n' & Xy & Hn' & HXy' & HN & Hts & _ & _ & HX & Hy).
  assert (n' = n) as -> by congruence.
  rewrite HXy in HXy'. injection HXy' as <-. simpl in HX, Hy.
  rewrite HN, Hts, HX, Hy. split.
  - rewrite X_after_all, windows_concat. rewrite drop_0. f_equal. nia.
  - replace (Z.to_nat (n - 1)) with (Z.to_nat n - 1)%nat by lia.
    rewrite y_after_all, windows_concat. unfold py_slice.
    f_equal; [nia|f_equal; nia].
Qed.

End Tiling.

(** ** The number of examples, in integers *)

Section WindowCountExact.

Context `{K : Keras}.

(** A power of two between a positive integer and its double. *)
Lemma pow2_above (b : Z) :
  0 < b -> exists j : Z, 0 <= j /\ b <= 2 ^ j /\ 2 ^ j < 2 * b.
Proof.
  intros Hb. exists (Z.log2_up b). split; [apply Z.log2_up_nonneg|].
  destruct (Z.eq_dec b 1) as [->|Hne]; [change (Z.log2_up 1) with 0; simpl; lia|].
  destruct (Z.log2_up_spec b ltac:(lia)) as [Hlo Hhi]. split; [exact Hhi|].
  assert (Hj : 0 < Z.log2_up b) by (apply Z.log2_up_pos; lia).
  replace (Z.log2_up b) with (Z.succ (Z.pred (Z.log2_up b))) by lia.
  rewrite Z.pow_succ_r by lia. lia.
Qed.

(** Two fractions of integers compare as their cross products. *)
Lemma Qdiv_le_cross (a b c d : Z) :
  0 < b -> 0 < d -> a * d <= c * b ->
  (inject_Z a / inject_Z b <= inject_Z c / inject_Z d)%Q.
Proof.
  intros Hb Hd H.
  assert (Hqb : (0 < inject_Z b)%Q) by (apply inject_Z_pos; lia).
  assert (Hqd : (0 < inject_Z d)%Q) by (apply inject_Z_pos; lia).
  apply Qle_shift_div_r; [exact Hqb|].
  assert (Heq : (inject_Z c / inject_Z d * inject_Z b
                 == inject_Z (c * b) / inject_Z d)%Q).
  { rewrite inject_Z_mult. field. Lqa.lra. }
  rewrite Heq. apply Qle_shift_div_l; [exact Hqd|].
  rewrite <- inject_Z_mult, <- Zle_Qle. exact H.
Qed.

Local Open Scope Q_scope.

(** [m / 2^j] with [0 <= m <= 2^53] and [0 <= j <= 1074] is a float. *)
Lemma binary64_dyadic (m j : Z) :
  (0 <= m <= 2 ^ 53)%Z -> (0 <= j <= 1074)%Z ->
  binary64 (inject_Z m / inject_Z (2 ^ j)) == inject_Z m / inject_Z (2 ^ j).
Proof.
  intros Hm Hj.
  assert (Hp : (0 < 2 ^ j)%Z) by (apply Z.pow_pos_nonneg; lia).
  assert (Hq : 0 < inject_Z (2 ^ j)) by (apply inject_Z_pos; exact Hp).
  destruct (Z.eq_dec m 0%Z) as [->|Hne].
  - rewrite binary64_zero; [|unfold Qdiv; ring]. unfold Qdiv. ring.
  - assert (Heq : inject_Z m / inject_Z (2 ^ j) == inject_Z m * pow2 (- j)).
    { rewrite <- pow2_inject by lia.
      assert (H := pow2_plus j (- j)). replace (j + - j)%Z with 0%Z in H by lia.
      change (pow2 0) with 1 in H. pose proof (pow2_pos j). pose proof (pow2_pos (-j)).
      apply Qmult_inj_r with (z := pow2 j); [Lqa.lra|].
      rewrite <- Qmult_assoc, (Qmult_comm (pow2 (- j))), <- H.
      field. Lqa.lra. }
    rewrite (binary64_comp _ _ Heq), Heq.
    rewrite binary64_positive.
    + apply round_positive_representable; lia.
    + apply Qmult_lt_0_compat; [apply inject_Z_pos; lia|apply pow2_pos].
Qed.

(** For tick counts a float holds with room to spare, the two float
    divisions and the floor give the integer quotient. *)
Lemma window_quotient_exact (a b c : Z) :
  (0 <= a)%Z -> (0 < b)%Z -> (0 < c)%Z -> (a + b * c <= 2 ^ 51)%Z ->
  Qfloor (binary64 (binary64 (inject_Z a / inject_Z b) / binary64 (inject_Z c)))
  = (a / (b * c))%Z.
Proof.
  intros Ha Hb Hc Hbound.
  set (k := (a / (b * c))%Z).
  assert (Hbc : (0 < b * c)%Z) by lia.
  assert (Hk0 : (0 <= k)%Z) by (apply Z.div_pos; lia).
  assert (Hklo : (k * (b * c) <= a)%Z).
  { rewrite Z.mul_comm. apply Z.mul_div_le. lia. }
  assert (Hkhi : (a < (k + 1) * (b * c))%Z).
  { replace ((k + 1) * (b * c))%Z with (b * c * Z.succ k)%Z by lia.
    apply Z.mul_succ_div_gt. lia. }
  assert (H53 : (2 ^ 53 = 4 * 2 ^ 51)%Z) by reflexivity.
  assert (H51 : (0 < 2 ^ 51)%Z) by reflexivity.
  assert (Hqb : 0 < inject_Z b) by (apply inject_Z_pos; lia).
  assert (Hqc : 0 < inject_Z c) by (apply inject_Z_pos; lia).
  assert (Hc53 : (Z.abs c <= 2 ^ 53)%Z) by nia.
  assert (Hfc : binary64 (inject_Z c) == inject_Z c) by (apply binary64_integer; exact Hc53).
  set (x := binary64 (inject_Z a / inject_Z b)).
  (* below *)
  assert (Hlow : inject_Z k <= binary64 (x / binary64 (inject_Z c))).
  { assert (Hkc : (Z.abs (k * c) <= 2 ^ 53)%Z) by nia.
    assert (H1 : inject_Z (k * c) <= x).
    { unfold x. rewrite <- (binary64_integer (k * c) Hkc). apply binary64_monotone.
      apply Qle_shift_div_l; [exact Hqb|].
      rewrite <- inject_Z_mult, <- Zle_Qle. lia. }
    assert (Hk53 : (Z.abs k <= 2 ^ 53)%Z) by nia.
    rewrite <- (binary64_integer k Hk53). apply binary64_monotone.
    rewrite Hfc. apply Qle_shift_div_l; [exact Hqc|].
    rewrite <- inject_Z_mult. exact H1. }
  (* above *)
  destruct (pow2_above b Hb) as (j & Hj0 & Hjlo & Hjhi).
  destruct (pow2_above c Hc) as (l & Hl0 & Hllo & Hlhi).
  assert (Hpj : (0 < 2 ^ j)%Z) by lia.
  assert (Hpl : (0 < 2 ^ l)%Z) by lia.
  assert (Hsum : (2 ^ (j + l) = 2 ^ j * 2 ^ l)%Z) by (apply Z.pow_add_r; lia).
  assert (Hjl : ((k + 1) * (2 ^ j * 2 ^ l) <= 2 ^ 53)%Z).
  { assert (2 ^ j * 2 ^ l <= 4 * (b * c))%Z by nia.
    assert ((k + 1) * (b * c) <= a + b * c)%Z by lia. nia. }
  assert (Hsmall : forall e : Z, (0 <= e)%Z -> (2 ^ e <= 2 ^ 53)%Z -> (e <= 1074)%Z).
  { intros e He Hle. destruct (Z.le_gt_cases e 53) as [|Hgt]; [lia|].
    assert (2 ^ 53 < 2 ^ e)%Z by (apply Z.pow_lt_mono_r; lia). lia. }
  assert (Hj1074 : (j + l <= 1074)%Z).
  { apply Hsmall; [lia|]. rewrite Hsum. nia. }
  assert (Hj1074' : (j <= 1074)%Z) by lia.
  assert (Hqj : 0 < inject_Z (2 ^ j)) by (apply inject_Z_pos; lia).
  assert (Hqjl : 0 < inject_Z (2 ^ (j + l))) by (apply inject_Z_pos; lia).
  assert (Hup1 : x <= inject_Z ((k + 1) * c * 2 ^ j - 1) / inject_Z (2 ^ j)).
  { unfold x. rewrite <- binary64_dyadic; [|nia|lia].
    apply binary64_monotone. apply Qdiv_le_cross; [lia|lia|nia]. }
  assert (Hup2 : binary64 (x / binary64 (inject_Z c))
                 <= inject_Z ((k + 1) * 2 ^ (j + l) - 1) / inject_Z (2 ^ (j + l))).
  { rewrite <- (binary64_dyadic ((k + 1) * 2 ^ (j + l) - 1)); [|nia|lia].
    apply binary64_monotone. rewrite Hfc.
    apply Qle_shift_div_r; [exact Hqc|].
    eapply Qle_trans; [exact Hup1|].
    assert (Heq : inject_Z ((k + 1) * 2 ^ (j + l) - 1) / inject_Z (2 ^ (j + l)) * inject_Z c
                  == inject_Z (((k + 1) * 2 ^ (j + l) - 1) * c) / inject_Z (2 ^ (j + l))).
    { rewrite (inject_Z_mult _ c). field. Lqa.lra. }
    rewrite Heq. apply Qdiv_le_cross; [lia|lia|]. rewrite Hsum. nia. }
  assert (Hup3 : inject_Z ((k + 1) * 2 ^ (j + l) - 1) / inject_Z (2 ^ (j + l))
                 < inject_Z (k + 1)).
  { apply Qlt_shift_div_r; [exact Hqjl|].
    rewrite <- inject_Z_mult, <- Zlt_Qlt. lia. }
  set (q := binary64 (x / binary64 (inject_Z c))) in *.
  pose proof (Qfloor_le q) as Hf1. pose proof (Qlt_floor q) as Hf2.
  assert (Hlt1 : inject_Z k < inject_Z (Qfloor q + 1)) by Lqa.lra.
  assert (Hlt2 : inject_Z (Qfloor q) < inject_Z (k + 1)) by Lqa.lra.
  rewrite <- Zlt_Qlt in Hlt1, Hlt2. lia.
Qed.

Local Close Scope Q_scope.

(** The number of examples in integers. *)
Lemma window_count_quotient (midi : Midi) (beats : Z) :
  0 <= total_ticks midi -> 0 < tpb midi -> 0 < beats ->
  total_ticks midi + tpb midi * beats <= 2 ^ 51 ->
  window_count binary64 midi beats
  = Ok (total_ticks midi / (tpb midi * beats) - 1).
Proof.
  intros Ha Hb Hc Hbound. unfold window_count, total_beats_of, int_truediv.
  destruct (Z.eqb_spec (tpb midi) 0) as [|_]; [lia|]. simpl.
  rewrite float_truediv_Ok.
  - simpl. rewrite window_quotient_exact by assumption. reflexivity.
  - intros H0. apply binary64_int_zero in H0. lia.
Qed.

(** X10.  In the float arithmetic of CPython the two divisions and the floor
    lose nothing: for tick counts with [total_ticks + tpb * beats_in_window
    <= 2^51], [N] is the integer quotient of [total_ticks] by the ticks of a
    window, less one.  So [N >= 1] exactly for two windows of ticks or
    more, and [N < 0] exactly for less than one. *)
Theorem window_count_integer (midi : Midi) (beats : Z) :
  0 <= total_ticks midi -> 0 < tpb midi -> 0 < beats ->
  total_ticks midi + tpb midi * beats <= 2 ^ 51 ->
  exists n,
    window_count binary64 midi beats = Ok n /\
    n = total_ticks midi / (tpb midi * beats) - 1 /\
    (1 <= n <-> 2 * (tpb midi * beats) <= total_ticks midi) /\
    (n < 0 <-> total_ticks midi < tpb midi * beats).
Proof.
  intros Ha Hb Hc Hbound. eexists. split; [apply window_count_quotient; assumption|].
  split; [reflexivity|].
  assert (Hbc : 0 < tpb midi * beats) by lia.
  set (w := tpb midi * beats) in *. set (k := total_ticks midi / w).
  assert (Hklo : w * k <= total_ticks midi) by (apply Z.mul_div_le; lia).
  assert (Hkhi : total_ticks midi < w * Z.succ k) by (apply Z.mul_succ_div_gt; lia).
  split; split; intros H; nia.
Qed.

(** X11.  A performance whose roll agrees with its tick count constructs, in
    the float arithmetic of CPython, exactly when it holds a whole window;
    then [N] is the number of whole windows less one, the [N + 1] windows
    the loop reads lie inside the roll, and [X[i]] is window [i] in full. *)
Theorem consistent_performance_constructs (midi : Midi) (beats : Z) :
  tick_consistent midi ->
  0 < beats -> 0 < res midi -> 0 <= note_range midi ->
  Forall (fun row => length row = Z.to_nat (note_range midi)) (beat_roll midi) ->
  total_ticks midi + tpb midi * beats <= 2 ^ 51 ->
  ((exists net, Network_init binary64 midi beats = Ok net)
   <-> tpb midi * beats <= total_ticks midi) /\
  forall net,
    Network_init binary64 midi beats = Ok net ->
    N net = total_ticks midi / (tpb midi * beats) - 1 /\
    (N net + 1) * time_step net <= Z.of_nat (length (beat_roll midi)) /\
    forall i : nat,
      (i < Z.to_nat (N net))%nat ->
      exists block : Matrix,
        X net !! i = Some block /\
        block = py_slice (beat_roll midi) (i * Z.to_nat (time_step net))
                  ((i + 1) * Z.to_nat (time_step net)) /\
        length block = Z.to_nat (time_step net).
Proof.
  intros [Htpb Hticks] Hbeats Hres Hr Hrows Hbound.
  assert (Htt : 0 <= total_ticks midi) by nia.
  pose proof (window_count_quotient midi beats Htt Htpb Hbeats Hbound) as Hn.
  assert (Hw : 0 < tpb midi * beats) by lia.
  set (w := tpb midi * beats) in *. set (k := total_ticks midi / w) in *.
  assert (Hklo : w * k <= total_ticks midi) by (apply Z.mul_div_le; lia).
  assert (Hkhi : total_ticks midi < w * Z.succ k) by (apply Z.mul_succ_div_gt; lia).
  assert (Hk0 : 0 <= k) by (apply Z.div_pos; lia).
  assert (Hlong : k * (beats * res midi) <= Z.of_nat (length (beat_roll midi))).
  { assert (H1 : k * (beats * res midi) * tpb midi
                 <= Z.of_nat (length (beat_roll midi)) * tpb midi).
    { rewrite Hticks. unfold w in Hklo.
      replace (k * (beats * res midi) * tpb midi)
        with ((tpb midi * beats * k) * res midi) by ring.
      apply Z.mul_le_mono_nonneg_r; lia. }
    apply Z.mul_le_mono_pos_r in H1; assumption. }
  assert (Hok : w <= total_ticks midi ->
                windows (beat_roll midi) (k - 1) (beats * res midi) (note_range midi)
                = Ok (X_after (beat_roll midi) (Z.to_nat (k - 1))
                        (Z.to_nat (beats * res midi)) (Z.to_nat (note_range midi))
                        (Z.to_nat (k - 1)),
                      y_after (beat_roll midi) (Z.to_nat (k - 1))
                        (Z.to_nat (beats * res midi)) (Z.to_nat (note_range midi))
                        (Z.to_nat (k - 1)))).
  { intros Hone. assert (1 <= k) by nia.
    apply windows_closed_form; (assumption || lia). }
  split; [split|].
  - intros [net Hnet]. destruct (Z.le_gt_cases w (total_ticks midi)) as [|Hlt]; [assumption|].
    assert (k = 0) by nia.
    rewrite (short_performance_fails binary64 midi beats _ Hn) in Hnet by lia.
    discriminate Hnet.
  - intros Hone. exact (Network_init_Ok binary64 midi beats _ _ Hn (Hok Hone)).
  - intros net Hnet.
    destruct (Network_init_inv binary64 _ _ _ Hnet)
      as (n' & Xy & Hn' & HXy' & HN & Hts & _ & _ & HX & _).
    assert (n' = k - 1) as -> by congruence.
    assert (Hone : w <= total_ticks midi).
    { destruct (Z.le_gt_cases w (total_ticks midi)) as [|Hlt]; [assumption|].
      assert (k = 0) by nia.
      rewrite (short_performance_fails binary64 midi beats _ Hn) in Hnet by lia.
      discriminate Hnet. }
    rewrite (Hok Hone) in HXy'. injection HXy' as <-. simpl in HX.
    rewrite HN, Hts, HX. split; [reflexivity|]. split.
    { replace (k - 1 + 1) with k by lia. exact Hlong. }
    intros i Hi. rewrite X_after_lookup by exact Hi.
    destruct (Nat.ltb_spec i (Z.to_nat (k - 1))); [|lia].
    eexists. split; [reflexivity|]. split.
    + unfold window. f_equal. lia.
    + unfold window.
      assert (Hin : (i * Z.to_nat (beats * res midi) + Z.to_nat (beats * res midi)
                     <= length (beat_roll midi))%nat).
      { assert (Z.of_nat i + 1 <= k) by lia.
        assert ((Z.of_nat i + 1) * (beats * res midi) <= k * (beats * res midi))
          by (apply Z.mul_le_mono_nonneg_r; lia).
        nia. }
      rewrite py_slice_length by lia. lia.
Qed.

End WindowCountExact.

(** ** The examples and the graph *)

Section ExamplesAndGraph.

Context `{K : Keras}.
Variable rnd : Q -> Q.

(** X12.  The examples fit the graph: the model takes the encoder input and
    the decoder input, both declared with shape [(time_step, note_range)],
    its emission layer has [note_range] units, and every window of [X] and
    every target of [y] has exactly [time_step] rows of [note_range]
    cells. *)
Theorem examples_fit_inputs (midi : Midi) (beats : Z) (net : Network) :
  Network_init rnd midi beats = Ok net ->
  exists encoder decoder : InputLayer,
    model_inputs (training_model net) = [KInput encoder; KInput decoder] /\
    enc_in net = KInput encoder /\ dec_in net = KInput decoder /\
    input_shape encoder = (time_step net, note_range midi) /\
    input_shape decoder = (time_step net, note_range midi) /\
    dense_units (dec_dense net) = note_range midi /\
    forall block : Matrix,
      block ∈ X net ++ y net ->
      Z.of_nat (length block) = time_step net /\
      Forall (fun row => Z.of_nat (length row) = note_range midi) block.
Proof.
  intros Hnet.
  destruct (Network_init_inv rnd _ _ _ Hnet)
    as (n & Xy & _ & HXy & _ & Hts & _ & _ & HX & Hy).
  assert (Hdims : 0 <= beats * res midi /\ 0 <= note_range midi).
  { unfold windows in HXy. apply bind_Ok in HXy as (X0 & HX0 & _).
    apply np_zeros_inv in HX0. lia. }
  destruct (windows_shape _ _ _ _ _ HXy) as [[_ HsX] [_ Hsy]].
  rewrite <- HX, <- Hy, <- Hts in *.
  unfold Network_init in Hnet.
  apply bind_Ok in Hnet as (n' & _ & H). apply bind_Ok in H as (Xy' & _ & H).
  injection H as <-. simpl in *.
  eexists _, _. repeat (split; [reflexivity|]).
  intros block Hin. apply elem_of_app in Hin.
  assert (Hblock : length block = Z.to_nat (beats * res midi) /\
                   Forall (fun row => length row = Z.to_nat (note_range midi)) block).
  { destruct Hin as [Hin|Hin];
      [eapply (proj1 (Forall_forall _ _) HsX)|eapply (proj1 (Forall_forall _ _) Hsy)];
      exact Hin. }
  destruct Hblock as [Hlen Hrows]. split; [lia|].
  eapply Forall_impl; [exact Hrows|]. simpl. intros row Hrow. lia.
Qed.

End ExamplesAndGraph.

(** ** Which examples train *)

Section TrainingSplit.

Context `{K : Keras}.

(** [1. - 0.2] in floats: the float nearest to 8/10, a little above it. *)
Lemma one_minus_split :
  binary64 (1 - binary64 (2 # 10)) = (3602879701896397 # 4503599627370496)%Q.
Proof. vm_compute. reflexivity. Qed.

(** [int(n * (1. - 0.2))] is [4 * n / 5] in integers, for every number of
    examples a float holds with room to spare. *)
Lemma split_at_four_fifths (n : nat) :
  Z.of_nat n <= 2 ^ 50 ->
  split_at binary64 n (binary64 (2 # 10)) = Z.to_nat (4 * Z.of_nat n / 5).
Proof.
  intros Hn. unfold split_at. f_equal. rewrite one_minus_split.
  set (z := Z.of_nat n) in *. set (q := 4 * z / 5).
  assert (Hz : 0 <= z) by (unfold z; lia).
  assert (H50 : 2 ^ 50 = 1125899906842624) by reflexivity.
  assert (H53 : 2 ^ 53 = 9007199254740992) by reflexivity.
  assert (Hqlo : 5 * q <= 4 * z) by (apply Z.mul_div_le; lia).
  assert (Hqhi : 4 * z < 5 * (q + 1)).
  { replace (q + 1) with (Z.succ q) by lia. apply Z.mul_succ_div_gt. lia. }
  assert (Hfz : (binary64 (inject_Z z) == inject_Z z)%Q) by (apply binary64_integer; lia).
  set (v := (binary64 (inject_Z z) * (3602879701896397 # 4503599627370496))%Q).
  assert (Hv : (v == inject_Z (z * 3602879701896397) / inject_Z (2 ^ 52))%Q).
  { unfold v. rewrite Hfz, inject_Z_mult.
    change (inject_Z (2 ^ 52)) with (4503599627370496 # 1)%Q.
    change (3602879701896397 # 4503599627370496)%Q
      with (inject_Z 3602879701896397 / (4503599627370496 # 1))%Q.
    unfold Qdiv. ring. }
  assert (Hlow : (inject_Z q <= binary64 v)%Q).
  { rewrite <- (binary64_integer q) by lia. apply binary64_monotone.
    rewrite Hv. apply Qle_shift_div_l; [reflexivity|].
    rewrite <- inject_Z_mult, <- Zle_Qle.
    change (2 ^ 52) with 4503599627370496. lia. }
  assert (Hup : (binary64 v <= inject_Z (8 * q + 7) / inject_Z (2 ^ 3))%Q).
  { rewrite <- binary64_dyadic; [|lia|lia]. apply binary64_monotone.
    rewrite Hv. apply Qdiv_le_cross; [reflexivity|reflexivity|].
    change (2 ^ 52) with 4503599627370496. change (2 ^ 3) with 8. lia. }
  assert (Hup' : (inject_Z (8 * q + 7) / inject_Z (2 ^ 3) < inject_Z (q + 1))%Q).
  { apply Qlt_shift_div_r; [reflexivity|].
    rewrite <- inject_Z_mult, <- Zlt_Qlt. change (2 ^ 3) with 8. lia. }
  pose proof (Qfloor_le (binary64 v)) as Hf1. pose proof (Qlt_floor (binary64 v)) as Hf2.
  assert (Hlt1 : (inject_Z q < inject_Z (Qfloor (binary64 v) + 1))%Q) by Lqa.lra.
  assert (Hlt2 : (inject_Z (Qfloor (binary64 v)) < inject_Z (q + 1))%Q) by Lqa.lra.
  rewrite <- Zlt_Qlt in Hlt1, Hlt2. lia.
Qed.

(** X13.  In the float arithmetic of CPython, [train] updates the weights
    from the first [4 * n / 5] (rounded down) of the [n] examples only, in
    their order; the others are held back for validation, and the last
    example is always one of them. *)
Theorem train_holds_back_fifth (net : Network) (epochs : Z) :
  length (X net) = length (y net) ->
  Z.of_nat (length (y net)) <= 2 ^ 50 ->
  let kept := Z.to_nat (4 * Z.of_nat (length (y net)) / 5) in
  let fitted :=
    fit_epochs (Z.to_nat epochs)
      (keras_compile (training_model net) "rmsprop" "binary_crossentropy")
      1 (zip_with teacher_forced (take kept (X net)) (take kept (y net))) in
  train binary64 net epochs = (set_training_model net fitted.1, fitted.2) /\
  (y net <> [] -> (kept < length (y net))%nat).
Proof.
  intros Hlen Hn kept fitted.
  destruct validation_split_in_range as [H0 H1].
  pose proof (train_fits binary64 net epochs H0 H1 Hlen) as Htrain.
  cbv zeta in Htrain.
  rewrite split_at_four_fifths in Htrain by exact Hn.
  fold kept in Htrain. rewrite zip_with_take in Htrain.
  split; [exact Htrain|].
  intros Hy. assert (Hpos : (0 < length (y net))%nat).
  { destruct (y net); [congruence|simpl; lia]. }
  unfold kept.
  assert (Hq : 5 * (4 * Z.of_nat (length (y net)) / 5) <= 4 * Z.of_nat (length (y net)))
    by (apply Z.mul_div_le; lia).
  lia.
Qed.

End TrainingSplit.

Section TrainingErrors.

Context `{K : Keras}.
Variable rnd : Q -> Q.

(** An exception of the epochs is an exception of an epoch, run on the
    model as compiled. *)
Lemma fit_epochs_raises (k : nat) (m : KModel Weights) (batch_size : Z)
    (training : list Sample) (e : PyError) :
  (fit_epochs k m batch_size training).2 = Some e ->
  exists m',
    model_inputs m' = model_inputs m /\ model_outputs m' = model_outputs m /\
    compiled m' = compiled m /\
    run_epoch m' batch_size training = Raise e.
Proof.
  revert m. induction k as [|k IH]; intros m; simpl; [discriminate|].
  destruct (run_epoch m batch_size training) as [w|e'] eqn:Hrun; simpl.
  - intros H. destruct (IH _ H) as (m' & Hi & Ho & Hc & Hr).
    exists m'. simpl in *. auto.
  - intros [= <-]. exists m. auto.
Qed.

(** X14.  On a constructed network [train] raises nothing of its own: the
    model is compiled before it is fitted and the arrays agree on the
    number of examples, so an exception of [train] is the exception of an
    epoch of gradient updates, run with batch size 1 on the model with the
    constructor's graph, compiled with [rmsprop] and the binary
    cross-entropy. *)
Theorem train_raises_from_epoch (midi : Midi) (beats epochs : Z) (net : Network)
    (e : PyError) :
  Network_init rnd midi beats = Ok net ->
  (train rnd net epochs).2 = Some e ->
  0 < epochs /\
  exists (m : KModel Weights) (training : list Sample),
    model_inputs m = [enc_in net; dec_in net] /\
    compiled m = Some ("rmsprop", "binary_crossentropy")%string /\
    training `sublist_of` zip_with teacher_forced (X net) (y net) /\
    run_epoch m 1 training = Raise e.
Proof.
  intros Hnet He.
  pose proof (constructed_lengths rnd midi beats net Hnet) as Hlen.
  unfold train in He. simpl in He.
  rewrite keras_fit_compiled in He by exact Hlen.
  split.
  { destruct (Z.lt_ge_cases 0 epochs) as [|Hle]; [assumption|].
    replace (Z.to_nat epochs) with 0%nat in He by lia. discriminate He. }
  apply fit_epochs_raises in He as (m & Hi & _ & Hc & Hr).
  exists m, (training_examples rnd (rnd (2 # 10))
               (zip_with teacher_forced (X net) (y net))).
  simpl in Hi, Hc. split; [|split; [exact Hc|split; [|exact Hr]]].
  - rewrite Hi. unfold Network_init in Hnet.
    apply bind_Ok in Hnet as (n & _ & H). apply bind_Ok in H as (Xy & _ & H).
    injection H as <-. reflexivity.
  - unfold training_examples.
    destruct (_ && _); [apply sublist_take|reflexivity].
Qed.

(** X15.  [train] with no epoch to run ([epochs <= 0]) compiles the model and
    does nothing else: the weights stay as they were and nothing is
    raised. *)
Theorem train_no_epochs (midi : Midi) (beats epochs : Z) (net : Network) :
  Network_init rnd midi beats = Ok net ->
  epochs <= 0 ->
  train rnd net epochs
  = (set_training_model net
       (keras_compile (training_model net) "rmsprop" "binary_crossentropy"),
     None) /\
  weights (training_model (train rnd net epochs).1) = weights (training_model net).
Proof.
  intros Hnet He.
  pose proof (constructed_lengths rnd midi beats net Hnet) as Hlen.
  assert (Htrain : train rnd net epochs
                   = (set_training_model net
                        (keras_compile (training_model net) "rmsprop"
                           "binary_crossentropy"), None)).
  { unfold train. rewrite keras_fit_compiled by exact Hlen.
    replace (Z.to_nat epochs) with 0%nat by lia. reflexivity. }
  split; [exact Htrain|]. rewrite Htrain. reflexivity.
Qed.

End TrainingErrors.

(** ** Files *)

Section Files.

Context `{K : Keras}.



(** What Keras promises of [save] and [load_model]: a written model reads
    back as it was. *)
Hypothesis load_of_save : forall m : KModel Weights, deserialize (serialize m) = Some m.

(** X18.  A save replaces what the name held: after two saves under one name
    the file system is the one of the second save alone, and loading the
    name gives the model saved last. *)
Theorem save_overwrites (first second other : Network) (filename : string)
    (fs : gmap string Blob) :
  save second filename (save first filename fs) = save second filename fs /\
  exists loaded,
    load_training other filename (save second filename (save first filename fs))
    = Ok loaded /\
    training_model loaded = training_model second.
Proof.
  split.
  - unfold save. apply insert_insert_eq.
  - exists (set_training_model other (training_model second)).
    unfold load_training, save. rewrite lookup_insert_eq, load_of_save.
    split; reflexivity.
Qed.

End Files.

Section TrainedFile.

Context `{K : Keras}.
Variable rnd : Q -> Q.
Hypothesis load_of_save : forall m : KModel Weights, deserialize (serialize m) = Some m.

(** X19.  Training, saving and loading compose: the model a network has
    after [train], saved and loaded into another network, is that trained
    model, with the compile settings of [train]; the loading network keeps
    its own tensors. *)
Theorem trained_model_reloads (net other : Network) (epochs : Z)
    (filename : string) (fs : gmap string Blob) :
  let trained := (train rnd net epochs).1 in
  exists loaded,
    load_training other filename (save trained filename fs) = Ok loaded /\
    training_model loaded = training_model trained /\
    compiled (training_model loaded) = Some ("rmsprop", "binary_crossentropy")%string /\
    X loaded = X other /\ y loaded = y other.
Proof.
  intros trained. exists (set_training_model other (training_model trained)).
  unfold load_training, save. rewrite lookup_insert_eq, load_of_save.
  split; [reflexivity|]. split; [reflexivity|]. split; [|split; reflexivity].
  unfold trained, train. simpl.
  apply (keras_fit_graph rnd
           (keras_compile (training_model net) "rmsprop" "binary_crossentropy")).
Qed.

End TrainedFile.


(** * The properties at concrete performances *)

(** Evaluation of a closed term of the model. *)
Ltac evaluate := vm_compute; reflexivity.

(** C1.  Four beats cut into windows of one beat give three examples.  The
    target of the first one, [y[0]], is the third slice of the roll, not
    the second: it is neither [beat_roll[1:2]] nor [X[1]], which the
    training of "the next section" needs. *)
Theorem target_window_misaligned :
  exists net,
    @Network_init trace_backend binary64 four_beats 1 = Ok net /\
    N net = 3 /\ time_step net = 1 /\
    X net = [[[0; 1]]; [[1; 0]]; [[1; 1]]] /\
    y net = [[[1; 1]]; [[0; 1]]; [[0; 0]]] /\
    py_slice (beat_roll four_beats) 1 2 = [[1; 0]] /\
    y net !! 0%nat <> Some (py_slice (beat_roll four_beats) 1 2) /\
    y net !! 0%nat <> X net !! 1%nat /\
    y net !! 0%nat = X net !! 2%nat.
Proof.
  eexists. split; [evaluate|]. vm_compute.
  repeat split; try reflexivity; intros H; discriminate H.
Qed.

(** The roll of the four beats holds the four windows read for three
    examples. *)
Lemma four_beats_well_shaped : well_shaped four_beats 1 3.
Proof.
  unfold well_shaped. simpl. repeat split; try lia. repeat constructor.
Qed.

(** The targets of the four beats are two windows ahead. *)
Lemma target_window_two_ahead_witness :
  window_count binary64 four_beats 1 = Ok 3 /\
  well_shaped four_beats 1 3 /\
  exists net,
    @Network_init trace_backend binary64 four_beats 1 = Ok net /\
    forall i : nat,
      (i + 1 < Z.to_nat (N net))%nat ->
      y net !! i
      = Some (py_slice (beat_roll four_beats)
                ((i + 2) * Z.to_nat (time_step net))
                ((i + 3) * Z.to_nat (time_step net))) /\
      ((i + 2 < Z.to_nat (N net))%nat -> y net !! i = X net !! (i + 2)%nat).
Proof.
  assert (Hn : window_count binary64 four_beats 1 = Ok 3) by evaluate.
  split; [exact Hn|]. split; [exact four_beats_well_shaped|].
  exact (@target_window_two_ahead trace_backend binary64 four_beats 1 3 Hn
           ltac:(lia) four_beats_well_shaped).
Defined.

(** The tensors of the four beats. *)
Lemma window_tensors_witness :
  window_count binary64 four_beats 1 = Ok 3 /\
  1 <= 3 /\
  well_shaped four_beats 1 3 /\
  exists net,
    @Network_init trace_backend binary64 four_beats 1 = Ok net /\
    N net = 3 /\
    time_step net = 1 * res four_beats /\
    has_shape (Z.to_nat (N net)) (Z.to_nat (time_step net))
      (Z.to_nat (note_range four_beats)) (X net) /\
    has_shape (Z.to_nat (N net)) (Z.to_nat (time_step net))
      (Z.to_nat (note_range four_beats)) (y net) /\
    forall i : nat,
      (i < Z.to_nat (N net))%nat ->
      X net !! i
      = Some (py_slice (beat_roll four_beats)
                (i * Z.to_nat (time_step net))
                ((i + 1) * Z.to_nat (time_step net))).
Proof.
  assert (Hn : window_count binary64 four_beats 1 = Ok 3) by evaluate.
  assert (H1 : 1 <= 3) by lia.
  split; [exact Hn|]. split; [exact H1|]. split; [exact four_beats_well_shaped|].
  exact (@window_tensors trace_backend binary64 four_beats 1 3 Hn H1
           four_beats_well_shaped).
Defined.

(** The last target of the four beats. *)
Lemma last_target_zero_witness :
  exists net,
    @Network_init trace_backend binary64 four_beats 1 = Ok net /\
    1 <= N net /\
    y net !! Z.to_nat (N net - 1)
    = Some (zeros (Z.to_nat (time_step net)) (Z.to_nat (note_range four_beats))).
Proof.
  eassert (Hnet : @Network_init trace_backend binary64 four_beats 1 = Ok _)
    by evaluate.
  assert (H1 : 1 <= 3) by lia.
  eexists. split; [exact Hnet|]. split; [exact H1|].
  exact (@last_target_zero trace_backend binary64 four_beats 1 _ Hnet H1).
Defined.

(** Seventeen beats in windows of eight: [floor(17 / 8) - 1 = 1]. *)
Lemma window_count_formula_witness :
  total_beats_of binary64 seventeen_beats = Ok 17%Q /\
  0 < 8 /\
  (inject_Z (2 * 8) <= 17)%Q /\
  17%Q
  = binary64 (inject_Z (total_ticks seventeen_beats) / inject_Z (tpb seventeen_beats)) /\
  exists n,
    window_count binary64 seventeen_beats 8 = Ok n /\
    n = Qfloor (binary64 (17 / binary64 (inject_Z 8))) - 1 /\
    1 <= n /\
    forall net,
      @Network_init trace_backend binary64 seventeen_beats 8 = Ok net -> N net = n.
Proof.
  assert (Htb : total_beats_of binary64 seventeen_beats = Ok 17%Q) by evaluate.
  assert (H8 : 0 < 8) by lia.
  assert (Hlong : (inject_Z (2 * 8) <= 17)%Q).
  { unfold Qle. simpl. lia. }
  split; [exact Htb|]. split; [exact H8|]. split; [exact Hlong|].
  exact (@window_count_formula trace_backend seventeen_beats 8 17%Q Htb H8 Hlong).
Defined.

(** Against C3 as stated.  A performance of eight beats is shorter than two
    windows of eight beats, and its construction succeeds: [N] is zero and
    the tensors have no row. *)
Lemma one_window_constructs :
  exists net total_beats,
    total_beats_of binary64 one_window = Ok total_beats /\
    (total_beats < inject_Z (2 * 8))%Q /\
    @Network_init trace_backend binary64 one_window 8 = Ok net /\
    N net = 0 /\ X net = [] /\ y net = [].
Proof.
  eexists. exists 8%Q. split; [evaluate|].
  split; [unfold Qlt; simpl; lia|].
  split; [evaluate|]. vm_compute. repeat split; reflexivity.
Qed.

(** Four beats in windows of eight: [N = -1], and [np.zeros] refuses;
    eight beats in windows of eight: [N = 0], and the tensors are empty. *)
Lemma short_performance_witness :
  window_count binary64 half_window 8 = Ok (-1) /\
  (np_zeros (-1) (8 * res half_window) (note_range half_window) = Raise ValueError /\
   @Network_init trace_backend binary64 half_window 8 = Raise ValueError) /\
  window_count binary64 one_window 8 = Ok 0 /\
  exists net,
    @Network_init trace_backend binary64 one_window 8 = Ok net /\ N net = 0 /\
    X net = [] /\ y net = [].
Proof.
  assert (Hhalf : window_count binary64 half_window 8 = Ok (-1)) by evaluate.
  assert (Hone : window_count binary64 one_window 8 = Ok 0) by evaluate.
  split; [exact Hhalf|]. split.
  - exact (proj1 (@short_performance trace_backend binary64 half_window 8 (-1) Hhalf)
             ltac:(lia)).
  - split; [exact Hone|].
    exact (proj2 (@short_performance trace_backend binary64 one_window 8 0 Hone)
             eq_refl ltac:(simpl; lia) ltac:(simpl; lia)).
Defined.

(** C5.  The network built for the four beats emits through a softmax, not
    through a logistic function per pitch: whatever the two pre-activations
    of a timestep are (a chord has both high), the two probabilities add up
    to one, so they are never both high. *)
Theorem chord_not_jointly_high :
  exists net,
    @Network_init trace_backend binary64 four_beats 1 = Ok net /\
    activation (dec_dense net) = "softmax" /\
    forall a b : R,
    exists p q : R,
      keras_activation (activation (dec_dense net)) [a; b] = Some [p; q] /\
      (p + q = 1)%R /\ ~ (1 / 2 < p /\ 1 / 2 < q)%R.
Proof.
  eexists. split; [evaluate|]. split; [reflexivity|]. intros a b.
  destruct (softmax [a; b]) as [|p [|q [|z l]]] eqn:Hsm; try discriminate Hsm.
  exists p, q. split; [rewrite <- Hsm; reflexivity|].
  assert (Hsum : (p + q = 1)%R).
  { pose proof (softmax_sum [a; b] ltac:(discriminate)) as H.
    rewrite Hsm in H. simpl in H. lra. }
  split; [exact Hsum|]. intros [Hp Hq]. lra.
Qed.

(** The emission layer of the network of one window. *)
Lemma emission_is_softmax_witness :
  exists net,
    @Network_init trace_backend binary64 one_window 8 = Ok net /\
    activation (dec_dense net) = "softmax" /\
    (exists x, model_outputs (training_model net) = [KDense (dec_dense net) x]) /\
    forall logits probs,
      keras_activation (activation (dec_dense net)) logits = Some probs ->
      probs = softmax logits /\
      (logits <> [] -> Rsum probs = 1%R) /\
      forall (i j : nat) (p q : R),
        i <> j -> probs !! i = Some p -> probs !! j = Some q -> (p + q <= 1)%R.
Proof.
  eassert (Hnet : @Network_init trace_backend binary64 one_window 8 = Ok _)
    by evaluate.
  eexists. split; [exact Hnet|].
  exact (@emission_is_softmax trace_backend binary64 one_window 8 _ Hnet).
Defined.

(** Against C9 as stated.  No argument of the constructor reaches
    [hidden]: there is no construction whose state width is not 128. *)
Lemma hidden_not_configurable :
  ~ exists (midi : Midi) (beats : Z) (net : Network),
      @Network_init trace_backend binary64 midi beats = Ok net /\ hidden net <> 128.
Proof.
  intros (midi & beats & net & Hnet & Hne).
  apply Hne. exact (Network_init_hidden binary64 midi beats net Hnet).
Qed.

(** The state width of the network of seventeen beats. *)
Lemma hidden_is_128_witness :
  exists net,
    @Network_init trace_backend binary64 seventeen_beats 8 = Ok net /\
    hidden net = 128 /\
    units (enc_lstm_1 net) = hidden net /\
    units (enc_lstm_2 net) = hidden net /\
    units (dec_lstm_1 net) = hidden net /\
    units (dec_lstm_2 net) = hidden net.
Proof.
  eassert (Hnet : @Network_init trace_backend binary64 seventeen_beats 8 = Ok _)
    by evaluate.
  eexists. split; [exact Hnet|].
  exact (@hidden_is_128 trace_backend binary64 seventeen_beats 8 _ Hnet).
Defined.

(** Ten examples leave eight to train on. *)
Lemma split_of_ten : split_at binary64 10 (binary64 (2 # 10)) = 8%nat.
Proof. evaluate. Qed.

(** Two epochs on the three examples of the four beats: the first two
    examples update the weights, twice; the third only validates. *)
Lemma train_contract_witness :
  exists net,
    @Network_init trace_backend binary64 four_beats 1 = Ok net /\
    length (X net) = length (y net) /\
    split_at binary64 (length (y net)) (binary64 (2 # 10)) = 2%nat /\
    train binary64 net 2
    = (let fitted :=
         fit_epochs 2
           (keras_compile (training_model net) "rmsprop" "binary_crossentropy") 1
           [teacher_forced [[0; 1]] [[1; 1]]; teacher_forced [[1; 0]] [[0; 1]]] in
       (set_training_model net fitted.1, fitted.2)) /\
    train_default binary64 net = train binary64 net 50 /\
    (train binary64 net 2).2 = None /\
    weights (training_model (train binary64 net 2).1)
    = [teacher_forced [[0; 1]] [[1; 1]]; teacher_forced [[1; 0]] [[0; 1]];
       teacher_forced [[0; 1]] [[1; 1]]; teacher_forced [[1; 0]] [[0; 1]]].
Proof.
  eassert (Hnet : @Network_init trace_backend binary64 four_beats 1 = Ok _)
    by evaluate.
  eexists. split; [exact Hnet|].
  match goal with
  | |- length (X ?net) = length (y ?net) /\ _ =>
      pose proof (@train_contract trace_backend net 2 eq_refl)
        as (Htrain & Hdefault & _)
  end.
  split; [reflexivity|]. split; [evaluate|].
  split; [exact Htrain|]. split; [exact Hdefault|].
  split; evaluate.
Defined.

(** The trained model of the four beats, saved and loaded into the network
    of one window, with a backend that writes the model itself. *)
Lemma save_load_roundtrip_witness :
  (forall m : KModel (@Weights trace_backend),
     @deserialize trace_backend (@serialize trace_backend m) = Some m) /\
  exists net other,
    @Network_init trace_backend binary64 four_beats 1 = Ok net /\
    @Network_init trace_backend binary64 one_window 8 = Ok other /\
    exists loaded,
      load_training other "seq2seq.h5"
        (save (train binary64 net 2).1 "seq2seq.h5" ∅)
      = Ok loaded /\
      training_model loaded = training_model (train binary64 net 2).1 /\
      predict (training_model loaded) [X net; X net]
      = predict (training_model (train binary64 net 2).1) [X net; X net].
Proof.
  assert (Hkeras : forall m : KModel (@Weights trace_backend),
            @deserialize trace_backend (@serialize trace_backend m) = Some m)
    by reflexivity.
  split; [exact Hkeras|].
  eassert (Hnet : @Network_init trace_backend binary64 four_beats 1 = Ok _)
    by evaluate.
  eassert (Hother : @Network_init trace_backend binary64 one_window 8 = Ok _)
    by evaluate.
  eexists. eexists. split; [exact Hnet|]. split; [exact Hother|].
  exact (@save_load_roundtrip trace_backend Hkeras _ _ "seq2seq.h5" ∅ _).
Defined.

(** ** The further properties at concrete performances *)

(** The shape of the tensors of the four beats. *)
Lemma constructed_shape_witness :
  exists net,
    @Network_init trace_backend binary64 four_beats 1 = Ok net /\
    time_step net = 1 * res four_beats /\
    has_shape (Z.to_nat (N net)) (Z.to_nat (time_step net))
      (Z.to_nat (note_range four_beats)) (X net) /\
    has_shape (Z.to_nat (N net)) (Z.to_nat (time_step net))
      (Z.to_nat (note_range four_beats)) (y net).
Proof.
  eassert (Hnet : @Network_init trace_backend binary64 four_beats 1 = Ok _)
    by evaluate.
  eexists. split; [exact Hnet|].
  exact (@constructed_shape trace_backend binary64 four_beats 1 _ Hnet).
Defined.

(** Four beats in windows of eight are refused with [ValueError]. *)
Lemma construction_raises_witness :
  Z.abs (total_ticks half_window) < 2 ^ 1023 /\
  Z.abs 8 < 2 ^ 1023 /\
  @Network_init trace_backend binary64 half_window 8 = Raise ValueError /\
  (ValueError = ZeroDivisionError \/ ValueError = ValueError).
Proof.
  assert (Hticks : Z.abs (total_ticks half_window) < 2 ^ 1023) by evaluate.
  assert (Hbeats : Z.abs 8 < 2 ^ 1023) by evaluate.
  assert (Hnet : @Network_init trace_backend binary64 half_window 8 = Raise ValueError)
    by evaluate.
  split; [exact Hticks|]. split; [exact Hbeats|]. split; [exact Hnet|].
  exact (@construction_raises trace_backend half_window 8 ValueError Hticks Hbeats Hnet).
Defined.

(** Windows of no beat divide by zero. *)
Lemma zero_division_iff_witness :
  Z.abs (total_ticks four_beats) < 2 ^ 1023 /\
  Z.abs 0 < 2 ^ 1023 /\
  (@Network_init trace_backend binary64 four_beats 0 = Raise ZeroDivisionError <->
   tpb four_beats = 0 \/ 0 = 0).
Proof.
  assert (Hticks : Z.abs (total_ticks four_beats) < 2 ^ 1023) by evaluate.
  assert (Hbeats : Z.abs 0 < 2 ^ 1023) by evaluate.
  split; [exact Hticks|]. split; [exact Hbeats|].
  exact (@zero_division_iff trace_backend four_beats 0 Hticks Hbeats).
Defined.

(** Windows of minus one beat: a window of minus one slice. *)
Lemma negative_dimension_witness :
  window_count binary64 four_beats (-1) = Ok (-5) /\
  (-1 * res four_beats < 0 \/ note_range four_beats < 0) /\
  @Network_init trace_backend binary64 four_beats (-1) = Raise ValueError.
Proof.
  assert (Hn : window_count binary64 four_beats (-1) = Ok (-5)) by evaluate.
  assert (Hneg : -1 * res four_beats < 0 \/ note_range four_beats < 0)
    by (left; simpl; lia).
  split; [exact Hn|]. split; [exact Hneg|].
  exact (@negative_dimension trace_backend binary64 four_beats (-1) (-5) Hn Hneg).
Defined.

(** Rows of three cells do not fit a note range of two. *)
Lemma width_mismatch_witness :
  window_count binary64 wide_rows 1 = Ok 3 /\
  beat_roll wide_rows <> [] /\
  Forall (fun row => length row = 3%nat) (beat_roll wide_rows) /\
  @Network_init trace_backend binary64 wide_rows 1 = Raise ValueError.
Proof.
  assert (Hn : window_count binary64 wide_rows 1 = Ok 3) by evaluate.
  assert (Hroll : beat_roll wide_rows <> []) by discriminate.
  assert (Hrows : Forall (fun row => length row = 3%nat) (beat_roll wide_rows))
    by (repeat constructor).
  split; [exact Hn|]. split; [exact Hroll|]. split; [exact Hrows|].
  exact (@width_mismatch trace_backend binary64 wide_rows 1 3 3 Hn
           ltac:(lia) ltac:(simpl; lia) ltac:(simpl; lia) Hroll Hrows
           ltac:(simpl; lia) ltac:(lia)).
Defined.

(** The roll of the four beats holds its four windows. *)
Lemma truncated_roll_detected_witness :
  exists net,
    @Network_init trace_backend binary64 four_beats 1 = Ok net /\
    2 <= N net /\
    0 < note_range four_beats /\
    ((N net + 1) * time_step net <= Z.of_nat (length (beat_roll four_beats)) \/
     Z.of_nat (length (beat_roll four_beats)) = N net * time_step net + 1).
Proof.
  eassert (Hnet : @Network_init trace_backend binary64 four_beats 1 = Ok _)
    by evaluate.
  assert (H2 : 2 <= 3) by lia.
  assert (Hr : 0 < note_range four_beats) by (simpl; lia).
  eexists. split; [exact Hnet|]. split; [exact H2|]. split; [exact Hr|].
  exact (@truncated_roll_detected trace_backend binary64 four_beats 1 _ Hnet H2 Hr).
Defined.

(** The three windows of the four beats, end to end. *)
Lemma windows_tile_roll_witness :
  window_count binary64 four_beats 1 = Ok 3 /\
  well_shaped four_beats 1 3 /\
  exists net,
    @Network_init trace_backend binary64 four_beats 1 = Ok net /\
    concat (X net)
    = take (Z.to_nat (N net * time_step net)) (beat_roll four_beats) /\
    concat (take (Z.to_nat (N net - 1)) (y net))
    = py_slice (beat_roll four_beats)
        (Z.to_nat (2 * time_step net))
        (Z.to_nat ((N net + 1) * time_step net)).
Proof.
  assert (Hn : window_count binary64 four_beats 1 = Ok 3) by evaluate.
  split; [exact Hn|]. split; [exact four_beats_well_shaped|].
  exact (@windows_tile_roll trace_backend binary64 four_beats 1 3 Hn
           ltac:(lia) four_beats_well_shaped).
Defined.

(** 1920 ticks at 480 ticks a beat: four windows of one beat, less one. *)
Lemma window_count_integer_witness :
  0 <= total_ticks four_beats /\
  0 < tpb four_beats /\
  total_ticks four_beats + tpb four_beats * 1 <= 2 ^ 51 /\
  exists n,
    window_count binary64 four_beats 1 = Ok n /\
    n = total_ticks four_beats / (tpb four_beats * 1) - 1 /\
    (1 <= n <-> 2 * (tpb four_beats * 1) <= total_ticks four_beats) /\
    (n < 0 <-> total_ticks four_beats < tpb four_beats * 1).
Proof.
  assert (Hticks : 0 <= total_ticks four_beats) by (simpl; lia).
  assert (Htpb : 0 < tpb four_beats) by (simpl; lia).
  assert (Hbound : total_ticks four_beats + tpb four_beats * 1 <= 2 ^ 51)
    by (simpl; lia).
  split; [exact Hticks|]. split; [exact Htpb|]. split; [exact Hbound|].
  exact (@window_count_integer four_beats 1 Hticks Htpb ltac:(lia) Hbound).
Defined.

Lemma four_beats_tick_consistent : tick_consistent four_beats.
Proof. unfold tick_consistent. simpl. lia. Qed.

(** The four beats agree with their tick count, and construct. *)
Lemma consistent_performance_constructs_witness :
  tick_consistent four_beats /\
  Forall (fun row => length row = Z.to_nat (note_range four_beats))
    (beat_roll four_beats) /\
  total_ticks four_beats + tpb four_beats * 1 <= 2 ^ 51 /\
  ((exists net, @Network_init trace_backend binary64 four_beats 1 = Ok net)
   <-> tpb four_beats * 1 <= total_ticks four_beats) /\
  forall net,
    @Network_init trace_backend binary64 four_beats 1 = Ok net ->
    N net = total_ticks four_beats / (tpb four_beats * 1) - 1 /\
    (N net + 1) * time_step net <= Z.of_nat (length (beat_roll four_beats)) /\
    forall i : nat,
      (i < Z.to_nat (N net))%nat ->
      exists block : Matrix,
        X net !! i = Some block /\
        block = py_slice (beat_roll four_beats) (i * Z.to_nat (time_step net))
                  ((i + 1) * Z.to_nat (time_step net)) /\
        length block = Z.to_nat (time_step net).
Proof.
  assert (Hrows : Forall (fun row => length row = Z.to_nat (note_range four_beats))
                    (beat_roll four_beats)) by (repeat constructor).
  assert (Hbound : total_ticks four_beats + tpb four_beats * 1 <= 2 ^ 51)
    by (simpl; lia).
  split; [exact four_beats_tick_consistent|]. split; [exact Hrows|].
  split; [exact Hbound|].
  exact (@consistent_performance_constructs trace_backend four_beats 1
           four_beats_tick_consistent ltac:(lia) ltac:(simpl; lia)
           ltac:(simpl; lia) Hrows Hbound).
Defined.

(** The examples of the four beats and the inputs of their graph. *)
Lemma examples_fit_inputs_witness :
  exists net,
    @Network_init trace_backend binary64 four_beats 1 = Ok net /\
    exists encoder decoder : InputLayer,
      model_inputs (training_model net) = [KInput encoder; KInput decoder] /\
      enc_in net = KInput encoder /\ dec_in net = KInput decoder /\
      input_shape encoder = (time_step net, note_range four_beats) /\
      input_shape decoder = (time_step net, note_range four_beats) /\
      dense_units (dec_dense net) = note_range four_beats /\
      forall block : Matrix,
        block ∈ X net ++ y net ->
        Z.of_nat (length block) = time_step net /\
        Forall (fun row => Z.of_nat (length row) = note_range four_beats) block.
Proof.
  eassert (Hnet : @Network_init trace_backend binary64 four_beats 1 = Ok _)
    by evaluate.
  eexists. split; [exact Hnet|].
  exact (@examples_fit_inputs trace_backend binary64 four_beats 1 _ Hnet).
Defined.

(** Of the three examples of the four beats, two train. *)
Lemma train_holds_back_fifth_witness :
  exists net,
    @Network_init trace_backend binary64 four_beats 1 = Ok net /\
    length (X net) = length (y net) /\
    Z.of_nat (length (y net)) <= 2 ^ 50 /\
    train binary64 net 2
    = (let kept := Z.to_nat (4 * Z.of_nat (length (y net)) / 5) in
       let fitted :=
         fit_epochs (Z.to_nat 2)
           (keras_compile (training_model net) "rmsprop" "binary_crossentropy")
           1 (zip_with teacher_forced (take kept (X net)) (take kept (y net))) in
       (set_training_model net fitted.1, fitted.2)) /\
    (y net <> [] -> (Z.to_nat (4 * Z.of_nat (length (y net)) / 5) < length (y net))%nat).
Proof.
  eassert (Hnet : @Network_init trace_backend binary64 four_beats 1 = Ok _)
    by evaluate.
  eexists. split; [exact Hnet|].
  assert (Hbound : Z.of_nat 3 <= 2 ^ 50) by (simpl; lia).
  split; [reflexivity|]. split; [exact Hbound|].
  match goal with
  | |- train binary64 ?net 2 = _ /\ _ =>
      exact (@train_holds_back_fifth trace_backend net 2 eq_refl Hbound)
  end.
Defined.

(** An epoch on no example: the network of one window has none, and the
    strict backend refuses. *)
Lemma train_raises_from_epoch_witness :
  exists net,
    @Network_init strict_backend binary64 one_window 8 = Ok net /\
    (train binary64 net 1).2 = Some ValueError /\
    0 < 1 /\
    exists (m : KModel (@Weights strict_backend)) (training : list Sample),
      model_inputs m = [enc_in net; dec_in net] /\
      compiled m = Some ("rmsprop", "binary_crossentropy")%string /\
      training `sublist_of` zip_with teacher_forced (X net) (y net) /\
      @run_epoch strict_backend m 1 training = Raise ValueError.
Proof.
  eassert (Hnet : @Network_init strict_backend binary64 one_window 8 = Ok _)
    by evaluate.
  eexists. split; [exact Hnet|].
  match goal with
  | |- (train binary64 ?net 1).2 = _ /\ _ =>
      assert (He : (train binary64 net 1).2 = Some ValueError) by evaluate;
      split; [exact He|];
      exact (@train_raises_from_epoch strict_backend binary64 one_window 8 1 net
               ValueError Hnet He)
  end.
Defined.

(** No epoch on the four beats. *)
Lemma train_no_epochs_witness :
  exists net,
    @Network_init trace_backend binary64 four_beats 1 = Ok net /\
    0 <= 0 /\
    train binary64 net 0
    = (set_training_model net
         (keras_compile (training_model net) "rmsprop" "binary_crossentropy"),
       None) /\
    weights (training_model (train binary64 net 0).1) = weights (training_model net).
Proof.
  eassert (Hnet : @Network_init trace_backend binary64 four_beats 1 = Ok _)
    by evaluate.
  assert (H0 : 0 <= 0) by lia.
  eexists. split; [exact Hnet|]. split; [exact H0|].
  exact (@train_no_epochs trace_backend binary64 four_beats 1 0 _ Hnet H0).
Defined.


(** Two saves under one name, with a backend that writes the model
    itself. *)
Lemma save_overwrites_witness :
  (forall m : KModel (@Weights trace_backend),
     @deserialize trace_backend (@serialize trace_backend m) = Some m) /\
  exists first second,
    @Network_init trace_backend binary64 four_beats 1 = Ok first /\
    @Network_init trace_backend binary64 one_window 8 = Ok second /\
    save second "seq2seq.h5" (save first "seq2seq.h5" ∅)
    = save second "seq2seq.h5" ∅ /\
    exists loaded,
      load_training first "seq2seq.h5"
        (save second "seq2seq.h5" (save first "seq2seq.h5" ∅))
      = Ok loaded /\
      training_model loaded = training_model second.
Proof.
  assert (Hkeras : forall m : KModel (@Weights trace_backend),
            @deserialize trace_backend (@serialize trace_backend m) = Some m)
    by reflexivity.
  split; [exact Hkeras|].
  eassert (Hnet : @Network_init trace_backend binary64 four_beats 1 = Ok _)
    by evaluate.
  eassert (Hother : @Network_init trace_backend binary64 one_window 8 = Ok _)
    by evaluate.
  eexists. eexists. split; [exact Hnet|]. split; [exact Hother|].
  exact (@save_overwrites trace_backend Hkeras _ _ _ "seq2seq.h5" ∅).
Defined.

(** The four beats trained for two epochs, saved, and loaded into the
    network of one window. *)
Lemma trained_model_reloads_witness :
  (forall m : KModel (@Weights trace_backend),
     @deserialize trace_backend (@serialize trace_backend m) = Some m) /\
  exists net other,
    @Network_init trace_backend binary64 four_beats 1 = Ok net /\
    @Network_init trace_backend binary64 one_window 8 = Ok other /\
    exists loaded,
      load_training other "seq2seq.h5"
        (save (train binary64 net 2).1 "seq2seq.h5" ∅)
      = Ok loaded /\
      training_model loaded = training_model (train binary64 net 2).1 /\
      compiled (training_model loaded)
      = Some ("rmsprop", "binary_crossentropy")%string /\
      X loaded = X other /\ y loaded = y other.
Proof.
  assert (Hkeras : forall m : KModel (@Weights trace_backend),
            @deserialize trace_backend (@serialize trace_backend m) = Some m)
    by reflexivity.
  split; [exact Hkeras|].
  eassert (Hnet : @Network_init trace_backend binary64 four_beats 1 = Ok _)
    by evaluate.
  eassert (Hother : @Network_init trace_backend binary64 one_window 8 = Ok _)
    by evaluate.
  eexists. eexists. split; [exact Hnet|]. split; [exact Hother|].
  exact (@trained_model_reloads trace_backend binary64 Hkeras _ _ 2 "seq2seq.h5" ∅).
Defined.
